(** * The JOS kernel monitor (kern/monitor.c)

    A shallow embedding of the command interpreter of the JOS kernel
    monitor: the tokenizer and dispatcher ([runcmd], [monitor]), the stack
    unwinder ([mon_backtrace]), the page-mapping inspector
    ([mon_pagemappings], [show_page_details]) and the constant resolver
    ([mon_memconst], [get_va_ref_point]).

    Conventions.
    - A [uint32_t] / [uintptr_t] is a [Z] kept in [0, 2^32) by [wrap32];
      an [int] printed with [%d] is read back through [signed32].
    - A C string is a Coq [string] without its terminating NUL.  The
      tokenizer, which inspects raw bytes of the line buffer, treats a
      NUL byte inside the buffer as the terminator, as the code does.
    - Console output, the calls made to the address-space accessor and the
      stack words read by the unwinder are recorded in a [World]; the code
      is written in a state monad over it.
    - Every loop of the source that has no static bound ([while (1)],
      [while (ebp > 0)], [for (; va_start <= va_end; ...)]) takes fuel, one
      unit per iteration; running out of fuel is the outcome [None]. *)

From Stdlib Require Import ZArith String Ascii List Bool Lia Sorted.
From Stdlib Require DecimalString HexadecimalString.
Import ListNotations.

Local Open Scope string_scope.
Local Open Scope Z_scope.

(** ** Machine integers *)

Definition wrap32 (z : Z) : Z := z mod 2 ^ 32.

Definition signed32 (z : Z) : Z :=
  let u := wrap32 z in if u <? 2 ^ 31 then u else u - 2 ^ 32.

(** ** Console formatting *)

Definition nl : string := String "010" EmptyString.

Fixpoint zeros (n : nat) : string :=
  match n with
  | O => EmptyString
  | S n' => String "0" (zeros n')
  end.

Definition hex_digits (v : Z) : string :=
  HexadecimalString.NilZero.string_of_uint (N.to_hex_uint (Z.to_N v)).

(** Modelled from the spec: the [%08x] conversion of [cprintf] (the
    formatter is not part of monitor.c): an unsigned 32-bit value in
    lower-case hexadecimal, padded with zeros on the left to eight
    digits. *)
Definition fmt_08x (v : Z) : string :=
  let d := hex_digits (wrap32 v) in
  zeros (8 - String.length d) ++ d.

(** Modelled from the spec: the [%d] conversion of [cprintf]: a signed
    32-bit value in decimal. *)
Definition fmt_d (v : Z) : string :=
  DecimalString.NilZero.string_of_int (Z.to_int (signed32 v)).

(** ** The world the monitor acts on *)

Record World : Type := mkWorld {
  console : string;        (* everything written by cprintf, in order *)
  pt_queries : list Z;     (* arguments of the page_table_entry calls *)
  mem_reads : list Z       (* addresses of the stack words read *)
}.

(** A computation either finishes with a value or runs out of fuel; the
    world it leaves behind is returned in both cases. *)
Definition M (A : Type) : Type := World -> option A * World.

Definition ret {A : Type} (a : A) : M A := fun w => (Some a, w).

Definition bind {A B : Type} (c : M A) (k : A -> M B) : M B :=
  fun w =>
    match c w with
    | (Some a, w') => k a w'
    | (None, w') => (None, w')
    end.

Definition out_of_fuel {A : Type} : M A := fun w => (None, w).

Declare Scope monitor_scope.
Delimit Scope monitor_scope with mon.
Notation "x <- c ;; k" := (bind c (fun x => k))
  (at level 61, c at next level, right associativity) : monitor_scope.
Notation "c ;; k" := (bind c (fun _ => k))
  (at level 61, right associativity) : monitor_scope.
Local Open Scope monitor_scope.

Definition cprintf (s : string) : M unit :=
  fun w => (Some tt, mkWorld (console w ++ s) (pt_queries w) (mem_reads w)).

(** Modelled from the spec: [cprintf_sep(&flag, sep, text)] is a helper of
    this kernel that monitor.c only calls.  It writes the items of a
    separated list with no trailing separator: [sep] is written before
    [text] when an item was already written ([*flag] non-zero), and
    [*flag] is set.  The new value of [*flag] is the result. *)
Definition cprintf_sep (flag : Z) (sep text : string) : M Z :=
  (if flag =? 0 then ret tt else cprintf sep) ;;
  cprintf text ;;
  ret 1.

(** ** C string functions used by the monitor *)

Definition NUL : ascii := "000"%char.

Definition deref (buf : string) : ascii :=
  match buf with
  | String c _ => c
  | EmptyString => NUL
  end.

Definition uchar (c : ascii) : Z := Z.of_N (N_of_ascii c).

(** Modelled from the spec: [strchr(s, c)] (inc/string.h), the offset of
    the first occurrence of [c] in [s], [None] for a null result. *)
Fixpoint strchr (s : string) (c : ascii) : option nat :=
  match s with
  | EmptyString => None
  | String d s' =>
      if Ascii.eqb d c then Some O else option_map S (strchr s' c)
  end.

(** Modelled from the spec: [strfind(s, c)] (inc/string.h), the offset of
    the first occurrence of [c] in [s], or of the terminator when there is
    none; [strfind(s, '\0')] is the end of the string. *)
Fixpoint strfind (s : string) (c : ascii) : nat :=
  match s with
  | EmptyString => O
  | String d s' => if Ascii.eqb d c then O else S (strfind s' c)
  end.

(** Modelled from the spec: [strcmp] (inc/string.h), zero exactly when
    the two strings are equal, otherwise the difference of the first
    bytes that differ. *)
Fixpoint strcmp (p q : string) : Z :=
  match p, q with
  | String a p', String b q' =>
      if Ascii.eqb a b then strcmp p' q' else uchar a - uchar b
  | String a _, EmptyString => uchar a
  | EmptyString, String b _ => - uchar b
  | EmptyString, EmptyString => 0
  end.

(** ** External collaborators and layout constants *)

Record Eipdebuginfo : Type := mkEipdebuginfo {
  eip_file : string;
  eip_line : Z;
  eip_fn_name : nat -> ascii;   (* the bytes at the name pointer *)
  eip_fn_namelen : Z;
  eip_fn_addr : Z;
  eip_fn_narg : Z
}.

(** What monitor.c takes from the rest of the kernel: the constants of
    inc/memlayout.h and inc/mmu.h, the linker symbols, and the functions
    it calls but does not define. *)
Class Machine : Type := mkMachine {
  (* inc/memlayout.h *)
  KERNBASE : Z; IOPHYSMEM : Z; EXTPHYSMEM : Z; KSTACKTOP : Z; KSTKSIZE : Z;
  KSTKGAP : Z; MMIOLIM : Z; MMIOBASE : Z; ULIM : Z; UVPT : Z; UPAGES : Z;
  UENVS : Z; UTOP : Z; UXSTACKTOP : Z; USTACKTOP : Z; UTEXT : Z; UTEMP : Z;
  PFTEMP : Z; USTABDATA : Z;
  (* inc/mmu.h: page-table entry flag masks *)
  PTE_P : Z; PTE_W : Z; PTE_U : Z; PTE_PWT : Z; PTE_PCD : Z; PTE_A : Z;
  PTE_D : Z; PTE_PS : Z; PTE_G : Z;
  (* linker symbols *)
  _start : Z; entry : Z; etext : Z; edata : Z; end_ : Z;
  (* strtol(s, &str_end, 0): the value and the offset of str_end in s *)
  strtol : string -> Z * nat;
  (* page_table_entry(va): the entry pointed to, None for a null pointer *)
  page_table_entry : Z -> option Z;
  npages : Z;
  read_ebp : Z;
  (* the 32-bit word stored at an address *)
  mem : Z -> Z;
  debuginfo_eip : Z -> Eipdebuginfo;
  (* what print_trapframe(tf) writes *)
  print_trapframe : Z -> string
}.

Definition PGSIZE : Z := 4096.

(** Modelled from the spec: [PTE_ADDR] (inc/mmu.h), the physical address
    in a page-table entry: the entry with its low 12 bits cleared. *)
Definition PTE_ADDR (pte : Z) : Z := Z.land (wrap32 pte) (wrap32 (Z.lnot 4095)).

(** Modelled from the spec: [PGNUM] (inc/mmu.h), the page number of an
    address, for pages of 4096 bytes. *)
Definition PGNUM (la : Z) : Z := Z.shiftr (wrap32 la) 12.

(** Modelled from the spec: [ROUNDUP(a, n)] (inc/types.h), [a] rounded up
    to a multiple of [n] in 32-bit arithmetic. *)
Definition ROUNDUP (a n : Z) : Z :=
  let x := wrap32 (a + n - 1) in signed32 (x - x mod n).

Definition CMDBUF_SIZE : Z := 80.

Section Monitor.

Context {machine : Machine}.

(** A handler, the [func] field of [struct Command]: it receives [argc],
    [argv] (the [argc] argument strings) and the address of the trap
    frame, and returns an [int]; the first argument is the fuel. *)
Definition handler : Type := nat -> Z -> list string -> Z -> M Z.

Record Command : Type := mkCommand {
  name : string;
  desc : string;
  func : handler
}.

Definition arg (argv : list string) (i : nat) : string := nth i argv "".

(** *** help, kerninfo *)

(** The name and description columns of [commands]; [mon_help] reads only
    these. *)
Definition command_info : list (string * string) :=
  [ ("help",         "Display this list of commands");
    ("kerninfo",     "Display information about the kernel");
    ("backtrace",    "Display a backtrace");
    ("pagemappings", "Display page mappings for a range of pages");
    ("memconst",     "Converts a memory constant to address") ].

Fixpoint help_lines (l : list (string * string)) : M unit :=
  match l with
  | [] => ret tt
  | (n, d) :: l' => cprintf (n ++ " - " ++ d ++ nl) ;; help_lines l'
  end.

Definition mon_help : handler := fun _ argc argv tf =>
  help_lines command_info ;;
  ret 0.

Definition mon_kerninfo : handler := fun _ argc argv tf =>
  cprintf ("Special kernel symbols:" ++ nl) ;;
  cprintf ("  _start                  " ++ fmt_08x _start ++ " (phys)" ++ nl) ;;
  cprintf ("  entry  " ++ fmt_08x entry ++ " (virt)  "
             ++ fmt_08x (entry - KERNBASE) ++ " (phys)" ++ nl) ;;
  cprintf ("  etext  " ++ fmt_08x etext ++ " (virt)  "
             ++ fmt_08x (etext - KERNBASE) ++ " (phys)" ++ nl) ;;
  cprintf ("  edata  " ++ fmt_08x edata ++ " (virt)  "
             ++ fmt_08x (edata - KERNBASE) ++ " (phys)" ++ nl) ;;
  cprintf ("  end    " ++ fmt_08x end_ ++ " (virt)  "
             ++ fmt_08x (end_ - KERNBASE) ++ " (phys)" ++ nl) ;;
  cprintf ("Kernel executable memory footprint: "
             ++ fmt_d (Z.quot (ROUNDUP (end_ - entry) 1024) 1024) ++ "KB" ++ nl) ;;
  ret 0.

(** *** backtrace *)

(** The address of [ref[i]] for [ref = (uint32_t * ) ebp]. *)
Definition word_addr (ebp : Z) (i : Z) : Z := wrap32 (ebp + 4 * i).

(** Reading [ref[i]]; the access is recorded. *)
Definition ref (ebp : Z) (i : Z) : M Z :=
  fun w =>
    (Some (wrap32 (mem (word_addr ebp i))),
     mkWorld (console w) (pt_queries w) (mem_reads w ++ [word_addr ebp i])).

Fixpoint print_chars (s : nat -> ascii) (i : nat) (n : nat) : M unit :=
  match n with
  | O => ret tt
  | S n' => cprintf (String (s i) EmptyString) ;; print_chars s (S i) n'
  end.

Definition backtrace_frame (ebp : Z) : M Z :=
  r1 <- ref ebp 1 ;;
  r2 <- ref ebp 2 ;;
  r3 <- ref ebp 3 ;;
  r4 <- ref ebp 4 ;;
  r5 <- ref ebp 5 ;;
  cprintf ("ebp 0x" ++ fmt_08x ebp ++ "  eip 0x" ++ fmt_08x r1
             ++ "  args 0x" ++ fmt_08x r2 ++ " 0x" ++ fmt_08x r3
             ++ " 0x" ++ fmt_08x r4 ++ " 0x" ++ fmt_08x r5 ++ nl) ;;
  eip <- ref ebp 1 ;;
  let info := debuginfo_eip eip in
  cprintf ("    " ++ eip_file info ++ ":" ++ fmt_d (eip_line info) ++ ": ") ;;
  print_chars (eip_fn_name info) 0 (Z.to_nat (eip_fn_namelen info)) ;;
  ra <- ref ebp 1 ;;
  cprintf ("+" ++ fmt_d (ra - eip_fn_addr info)
             ++ " (" ++ fmt_d (eip_fn_narg info) ++ ")" ++ nl) ;;
  ref ebp 0.

Fixpoint backtrace_loop (fuel : nat) (ebp : Z) : M unit :=
  if 0 <? ebp then
    match fuel with
    | O => out_of_fuel
    | S fuel' =>
        next <- backtrace_frame ebp ;;
        backtrace_loop fuel' next
    end
  else ret tt.

Definition mon_backtrace : handler := fun fuel argc argv tf =>
  let ebp := wrap32 read_ebp in
  cprintf ("Stack backtrace:" ++ nl) ;;
  backtrace_loop fuel ebp ;;
  ret 0.

(** *** pagemappings *)

(** The call [page_table_entry(va)]; the query is recorded. *)
Definition query_page_table_entry (va : Z) : M (option Z) :=
  fun w =>
    (Some (page_table_entry va),
     mkWorld (console w) (pt_queries w ++ [va]) (mem_reads w)).

(** [if( *pte & FLAG ) cprintf_sep(&comma, ",", text);] *)
Definition show_flag (pte flag : Z) (text : string) (comma : Z) : M Z :=
  if Z.land pte flag =? 0 then ret comma else cprintf_sep comma "," text.

Definition show_page_details (va : Z) : M unit :=
  pte <- query_page_table_entry va ;;
  match pte with
  | None => cprintf ("va 0x" ++ fmt_08x va ++ " -> unmapped" ++ nl)
  | Some e =>
      cprintf ("va 0x" ++ fmt_08x va ++ " -> pa 0x" ++ fmt_08x (PTE_ADDR e) ++ " [") ;;
      comma <- ret 0 ;;
      comma <- show_flag e PTE_P "P" comma ;;
      comma <- show_flag e PTE_W "W" comma ;;
      comma <- show_flag e PTE_U "U" comma ;;
      comma <- show_flag e PTE_PWT "PWT" comma ;;
      comma <- show_flag e PTE_PCD "PCD" comma ;;
      comma <- show_flag e PTE_A "A" comma ;;
      comma <- show_flag e PTE_D "D" comma ;;
      comma <- show_flag e PTE_PS "PS" comma ;;
      comma <- show_flag e PTE_G "G" comma ;;
      cprintf "]" ;;
      (if PGNUM (PTE_ADDR e) >=? wrap32 npages
       then cprintf " (no physical memory present)" else ret tt) ;;
      cprintf nl
  end.

(** [x &= ~0xFFF] on a [uintptr_t]. *)
Definition page_mask (x : Z) : Z := Z.land (wrap32 x) (wrap32 (Z.lnot 4095)).

(** [for(; va_start <= va_end; va_start += PGSIZE) show_page_details(va_start);] *)
Fixpoint pagemappings_loop (fuel : nat) (va_start va_end : Z) : M unit :=
  if va_start <=? va_end then
    match fuel with
    | O => out_of_fuel
    | S fuel' =>
        show_page_details va_start ;;
        pagemappings_loop fuel' (wrap32 (va_start + PGSIZE)) va_end
    end
  else ret tt.

(** The tail of [mon_pagemappings], once both addresses are parsed. *)
Definition pagemappings_range (fuel : nat) (va_start va_end : Z) : M Z :=
  let va_start := page_mask va_start in
  let va_end := page_mask va_end in
  pagemappings_loop fuel va_start va_end ;;
  ret 0.

Definition mon_pagemappings : handler := fun fuel argc argv tf =>
  if argc <? 2 then
    cprintf ("pagemappings expects at least one argument" ++ nl) ;;
    ret (-1)
  else if argc >? 3 then
    cprintf ("pagemappings expects at most two arguments" ++ nl) ;;
    ret (-1)
  else
    let (v1, str_end) := strtol (arg argv 1) in
    let va_start := wrap32 v1 in
    if negb (Nat.eqb str_end (strfind (arg argv 1) NUL)) then
      cprintf ("pagemappings: expecting number as first argument, could not parse '"
                 ++ arg argv 1 ++ "'" ++ nl) ;;
      ret (-1)
    else
      let va_end := va_start in
      if argc =? 3 then
        let (v2, str_end) := strtol (arg argv 2) in
        let va_end := wrap32 v2 in
        if negb (Nat.eqb str_end (strfind (arg argv 2) NUL)) then
          cprintf ("pagemappings: expecting number as second argument, could not parse '"
                     ++ arg argv 2 ++ "'" ++ nl) ;;
          ret (-1)
        else pagemappings_range fuel va_start va_end
      else pagemappings_range fuel va_start va_end.

(** *** memconst *)

(** Convenience function converting a string to the va.  The C function
    returns 1 and stores the value through [va], or returns 0; here
    [Some va] and [None]. *)
Definition get_va_ref_point (name : string) : option Z :=
  if strcmp name "KERNBASE"   =? 0 then Some (wrap32 KERNBASE)   else
  if strcmp name "IOPHYSMEM"  =? 0 then Some (wrap32 IOPHYSMEM)  else
  if strcmp name "EXTPHYSMEM" =? 0 then Some (wrap32 EXTPHYSMEM) else
  if strcmp name "KSTACKTOP"  =? 0 then Some (wrap32 KSTACKTOP)  else
  if strcmp name "KSTKSIZE"   =? 0 then Some (wrap32 KSTKSIZE)   else
  if strcmp name "KSTKGAP"    =? 0 then Some (wrap32 KSTKGAP)    else
  if strcmp name "MMIOLIM"    =? 0 then Some (wrap32 MMIOLIM)    else
  if strcmp name "MMIOBASE"   =? 0 then Some (wrap32 MMIOBASE)   else
  if strcmp name "ULIM"       =? 0 then Some (wrap32 ULIM)       else
  if strcmp name "UVPT"       =? 0 then Some (wrap32 UVPT)       else
  if strcmp name "UPAGES"     =? 0 then Some (wrap32 UPAGES)     else
  if strcmp name "UENVS"      =? 0 then Some (wrap32 UENVS)      else
  if strcmp name "UTOP"       =? 0 then Some (wrap32 UTOP)       else
  if strcmp name "UXSTACKTOP" =? 0 then Some (wrap32 UXSTACKTOP) else
  if strcmp name "USTACKTOP"  =? 0 then Some (wrap32 USTACKTOP)  else
  if strcmp name "UTEXT"      =? 0 then Some (wrap32 UTEXT)      else
  if strcmp name "UTEMP"      =? 0 then Some (wrap32 UTEMP)      else
  if strcmp name "PFTEMP"     =? 0 then Some (wrap32 PFTEMP)     else
  if strcmp name "USTABDATA"  =? 0 then Some (wrap32 USTABDATA)  else
  None.

Definition mon_memconst : handler := fun _ argc argv tf =>
  if negb (2 =? argc) then
    cprintf ("memconst expects a single argument" ++ nl) ;;
    ret (-1)
  else
    match get_va_ref_point (arg argv 1) with
    | Some va =>
        cprintf (arg argv 1 ++ ": 0x" ++ fmt_08x va ++ nl) ;;
        ret 0
    | None =>
        cprintf ("memconst: unknown memory constant '" ++ arg argv 1 ++ "'" ++ nl) ;;
        ret (-1)
    end.

(** *** The command table *)

Definition commands : list Command :=
  [ mkCommand "help"         "Display this list of commands"              mon_help;
    mkCommand "kerninfo"     "Display information about the kernel"       mon_kerninfo;
    mkCommand "backtrace"    "Display a backtrace"                        mon_backtrace;
    mkCommand "pagemappings" "Display page mappings for a range of pages" mon_pagemappings;
    mkCommand "memconst"     "Converts a memory constant to address"      mon_memconst ]%list.

(** *** Kernel monitor command interpreter *)

Definition WHITESPACE : string :=
  String "009" (String "013" (String "010" (String " " EmptyString))).

Definition MAXARGS : Z := 16.

Definition is_null {A : Type} (p : option A) : bool :=
  match p with
  | Some _ => false
  | None => true
  end.

(** The test [*buf && strchr(WHITESPACE, *buf)] on the byte [c = *buf]. *)
Definition at_whitespace (c : ascii) : bool :=
  negb (Ascii.eqb c NUL) && negb (is_null (strchr WHITESPACE c)).

(** The test [*buf && !strchr(WHITESPACE, *buf)]. *)
Definition at_argument (c : ascii) : bool :=
  negb (Ascii.eqb c NUL) && is_null (strchr WHITESPACE c).

(** [while ( *buf && strchr(WHITESPACE, *buf)) *buf++ = 0;]: the buffer
    from the position the loop stops at. *)
Fixpoint gobble (buf : string) : string :=
  match buf with
  | String c rest => if at_whitespace c then gobble rest else buf
  | EmptyString => buf
  end.

(** [while ( *buf && !strchr(WHITESPACE, *buf)) buf++;]: the bytes scanned
    past and the buffer from the position the loop stops at.  The byte
    the scan stops at is the terminator or a whitespace byte that the
    next [gobble] overwrites with 0, so the bytes scanned past are the
    string [argv[argc]] points to once parsing is over. *)
Fixpoint scan_arg (buf : string) : string * string :=
  match buf with
  | String c rest =>
      if at_argument c then
        let (a, r) := scan_arg rest in (String c a, r)
      else (EmptyString, buf)
  | EmptyString => (EmptyString, buf)
  end.

(** How the parsing loop of [runcmd] is left: by [break], with [argc] and
    [argv], or by [return]. *)
Inductive parsed : Type :=
| Break (argc : Z) (argv : list string)
| Return (status : Z).

Fixpoint parse_loop (fuel : nat) (buf : string) (argc : Z) (argv : list string)
  : M parsed :=
  match fuel with
  | O => out_of_fuel
  | S fuel' =>
      let buf := gobble buf in
      if Ascii.eqb (deref buf) NUL then ret (Break argc argv)
      else if argc =? MAXARGS - 1 then
        cprintf ("Too many arguments (max " ++ fmt_d MAXARGS ++ ")" ++ nl) ;;
        ret (Return 0)
      else
        let (a, buf) := scan_arg buf in
        parse_loop fuel' buf (argc + 1) (argv ++ [a])%list
  end.

(** [for (i = 0; i < NCOMMANDS; i++) ...] and the statements after it. *)
Fixpoint lookup_and_invoke (cmds : list Command)
    (fuel : nat) (argc : Z) (argv : list string) (tf : Z) : M Z :=
  match cmds with
  | c :: cmds' =>
      if strcmp (arg argv 0) (name c) =? 0 then func c fuel argc argv tf
      else lookup_and_invoke cmds' fuel argc argv tf
  | [] =>
      cprintf ("Unknown command '" ++ arg argv 0 ++ "'" ++ nl) ;;
      ret 0
  end%list.

(** [runcmd] over a given command table. *)
Definition runcmd_with (cmds : list Command)
    (fuel : nat) (buf : string) (tf : Z) : M Z :=
  p <- parse_loop fuel buf 0 [] ;;
  match p with
  | Return status => ret status
  | Break argc argv =>
      if argc =? 0 then ret 0
      else lookup_and_invoke cmds fuel argc argv tf
  end.

Definition runcmd : nat -> string -> Z -> M Z := runcmd_with commands.

(** Modelled from the spec: [readline(prompt)] (lib/readline.c), the line
    source: it writes the prompt and returns the next line, or a null
    pointer at end of input.  The lines still to come are passed
    explicitly. *)
Definition readline (prompt : string) (lines : list (option string))
  : M (option string * list (option string)) :=
  cprintf prompt ;;
  match lines with
  | l :: lines' => ret (l, lines')
  | [] => ret (None, [])
  end%list.

Fixpoint monitor_loop (fuel : nat) (tf : Z) (lines : list (option string))
  : M unit :=
  match fuel with
  | O => out_of_fuel
  | S fuel' =>
      r <- readline "K> " lines ;;
      let (buf, lines') := r in
      match buf with
      | Some b =>
          status <- runcmd fuel' b tf ;;
          if status <? 0 then ret tt else monitor_loop fuel' tf lines'
      | None => monitor_loop fuel' tf lines'
      end
  end.

Definition monitor (fuel : nat) (tf : Z) (lines : list (option string))
  : M unit :=
  cprintf ("Welcome to the JOS kernel monitor!" ++ nl) ;;
  cprintf ("Type 'help' for a list of commands." ++ nl) ;;
  (if negb (tf =? 0) then cprintf (print_trapframe tf) else ret tt) ;;
  monitor_loop fuel tf lines.

End Monitor.

(** ** What the claims are stated against *)

(** Writing [s] on the console of [w]. *)
Definition emit (w : World) (s : string) : World :=
  mkWorld (console w ++ s) (pt_queries w) (mem_reads w).

(** Recording the page-table queries [vas] in [w]. *)
Definition queried (w : World) (vas : list Z) : World :=
  mkWorld (console w) (pt_queries w ++ vas)%list (mem_reads w).

(** The translation flags, in the order in which they are listed. *)
Inductive flag : Type :=
| Present | Writable | User | WriteThrough | CacheDisable
| Accessed | Dirty | PageSize | Global.

Definition flag_order : list flag :=
  [Present; Writable; User; WriteThrough; CacheDisable;
   Accessed; Dirty; PageSize; Global]%list.

Definition mnemonic (f : flag) : string :=
  match f with
  | Present => "P" | Writable => "W" | User => "U"
  | WriteThrough => "PWT" | CacheDisable => "PCD"
  | Accessed => "A" | Dirty => "D" | PageSize => "PS" | Global => "G"
  end.

Definition flag_mask {machine : Machine} (f : flag) : Z :=
  match f with
  | Present => PTE_P | Writable => PTE_W | User => PTE_U
  | WriteThrough => PTE_PWT | CacheDisable => PTE_PCD
  | Accessed => PTE_A | Dirty => PTE_D | PageSize => PTE_PS | Global => PTE_G
  end.

(** Flag [f] is set in the page-table entry [pte]. *)
Definition flag_set {machine : Machine} (pte : Z) (f : flag) : bool :=
  negb (Z.land pte (flag_mask f) =? 0).

(** The comma-joined mnemonics of the flags set in [pte]. *)
Definition flag_list {machine : Machine} (pte : Z) : string :=
  String.concat "," (map mnemonic (filter (flag_set pte) flag_order)).

(** The value of [comma] once [items] have been written. *)
Definition comma_of (items : list string) : Z :=
  match items with
  | nil => 0
  | cons _ _ => 1
  end.

Definition item_if (b : bool) (text : string) : list string :=
  if b then cons text nil else nil.

(** The line printed for a page with a translation, up to the closing
    bracket. *)
Definition mapped_prefix {machine : Machine} (va pte : Z) : string :=
  "va 0x" ++ fmt_08x va ++ " -> pa 0x" ++ fmt_08x (PTE_ADDR pte)
    ++ " [" ++ flag_list pte ++ "]".

(** The physical frame number of the entry is not below [npages]. *)
Definition beyond_memory {machine : Machine} (pte : Z) : bool :=
  PGNUM (PTE_ADDR pte) >=? wrap32 npages.

(** ** Reference definitions for the tokenizer *)

(** The whitespace characters: tab, carriage return, line feed, space. *)
Definition whitespace (c : ascii) : bool :=
  (c =? "009")%char || (c =? "013")%char || (c =? "010")%char || (c =? " ")%char.

(** The pieces of a line between consecutive whitespace characters, empty
    pieces included. *)
Fixpoint split_ws (s : string) : list string :=
  match s with
  | EmptyString => [EmptyString]
  | String c s' =>
      if whitespace c then EmptyString :: split_ws s'
      else
        match split_ws s' with
        | p :: ps => String c p :: ps
        | [] => [String c EmptyString]
        end
  end%list.

Definition nonempty (s : string) : bool :=
  match s with
  | EmptyString => false
  | String _ _ => true
  end.

(** The maximal runs of non-whitespace characters of a line, from left to
    right. *)
Definition runs (line : string) : list string :=
  filter nonempty (split_ws line).

(** The string holds no NUL byte, as every C string does. *)
Fixpoint nul_free (s : string) : bool :=
  match s with
  | EmptyString => true
  | String c s' => negb (c =? NUL)%char && nul_free s'
  end.

(** Every character of the line is a whitespace character. *)
Fixpoint all_whitespace (s : string) : bool :=
  match s with
  | EmptyString => true
  | String c s' => whitespace c && all_whitespace s'
  end.

Definition too_many_arguments : string :=
  "Too many arguments (max 16)" ++ nl.

Definition unknown_command (tok : string) : string :=
  "Unknown command '" ++ tok ++ "'" ++ nl.

(** ** Reference definitions for the constant table *)

Definition constant_table {machine : Machine} : list (string * Z) :=
  [ ("KERNBASE", KERNBASE); ("IOPHYSMEM", IOPHYSMEM);
    ("EXTPHYSMEM", EXTPHYSMEM); ("KSTACKTOP", KSTACKTOP);
    ("KSTKSIZE", KSTKSIZE); ("KSTKGAP", KSTKGAP); ("MMIOLIM", MMIOLIM);
    ("MMIOBASE", MMIOBASE); ("ULIM", ULIM); ("UVPT", UVPT);
    ("UPAGES", UPAGES); ("UENVS", UENVS); ("UTOP", UTOP);
    ("UXSTACKTOP", UXSTACKTOP); ("USTACKTOP", USTACKTOP); ("UTEXT", UTEXT);
    ("UTEMP", UTEMP); ("PFTEMP", PFTEMP); ("USTABDATA", USTABDATA) ]%list.

Fixpoint table_lookup (t : list (string * Z)) (n : string) : option Z :=
  match t with
  | [] => None
  | (k, v) :: t' => if (n =? k)%string then Some v else table_lookup t' n
  end%list.

(** ** Reference definitions for argument validation *)

(** The numeric parse of [tok] consumes the entire token. *)
Definition parses {machine : Machine} (tok : string) : bool :=
  Nat.eqb (snd (strtol tok)) (strfind tok NUL).

Definition parse_error (position tok : string) : string :=
  "pagemappings: expecting number as " ++ position
    ++ " argument, could not parse '" ++ tok ++ "'" ++ nl.

(** The message for the first argument of [argv] that does not parse. *)
Definition parse_error_of {machine : Machine} (argv : list string) : string :=
  if parses (arg argv 1) then parse_error "second" (arg argv 2)
  else parse_error "first" (arg argv 1).

(** [pagemappings] is given a wrong number of arguments or a malformed
    numeric literal. *)
Definition pagemappings_rejects {machine : Machine}
    (argc : Z) (argv : list string) : bool :=
  (argc <? 2) || (3 <? argc) || negb (parses (arg argv 1))
  || ((argc =? 3) && negb (parses (arg argv 2))).

(** The pair of addresses [pagemappings] parses from its arguments, the
    end defaulting to the start when only one argument is given. *)
Definition parsed_start {machine : Machine} (argv : list string) : Z :=
  wrap32 (fst (strtol (arg argv 1))).

Definition parsed_end {machine : Machine} (argc : Z) (argv : list string) : Z :=
  if argc =? 3 then wrap32 (fst (strtol (arg argv 2))) else parsed_start argv.

(** [memconst] is given a wrong number of arguments or a name that is
    not in the constant table. *)
Definition memconst_rejects {machine : Machine}
    (argc : Z) (argv : list string) : bool :=
  negb (argc =? 2) || is_null (table_lookup constant_table (arg argv 1)).

(** ** Reference definitions for the stack unwinder *)

(** The word [ref[i]] of the frame at [ebp]. *)
Definition word {machine : Machine} (ebp i : Z) : Z :=
  wrap32 (mem (word_addr ebp i)).

(** The frame pointer reached from [ebp] after following [k] saved
    links. *)
Fixpoint nth_frame {machine : Machine} (k : nat) (ebp : Z) : Z :=
  match k with
  | O => ebp
  | S k' => nth_frame k' (word ebp 0)
  end.

(** The first [n] frame pointers of the chain that starts at [ebp]. *)
Fixpoint frame_chain {machine : Machine} (n : nat) (ebp : Z) : list Z :=
  match n with
  | O => []
  | S n' => ebp :: frame_chain n' (word ebp 0)
  end%list.

Definition frame_line {machine : Machine} (ebp : Z) : string :=
  "ebp 0x" ++ fmt_08x ebp ++ "  eip 0x" ++ fmt_08x (word ebp 1)
    ++ "  args 0x" ++ fmt_08x (word ebp 2) ++ " 0x" ++ fmt_08x (word ebp 3)
    ++ " 0x" ++ fmt_08x (word ebp 4) ++ " 0x" ++ fmt_08x (word ebp 5) ++ nl.

Fixpoint chars (s : nat -> ascii) (i n : nat) : string :=
  match n with
  | O => EmptyString
  | S n' => String (s i) (chars s (S i) n')
  end.

Definition symbol_line {machine : Machine} (ebp : Z) : string :=
  let info := debuginfo_eip (word ebp 1) in
  "    " ++ eip_file info ++ ":" ++ fmt_d (eip_line info) ++ ": "
    ++ chars (eip_fn_name info) 0 (Z.to_nat (eip_fn_namelen info))
    ++ "+" ++ fmt_d (word ebp 1 - eip_fn_addr info)
    ++ " (" ++ fmt_d (eip_fn_narg info) ++ ")" ++ nl.

(** The two lines printed for the frame at [ebp]. *)
Definition frame_text {machine : Machine} (ebp : Z) : string :=
  frame_line ebp ++ symbol_line ebp.

Fixpoint frames_text {machine : Machine} (l : list Z) : string :=
  match l with
  | nil => EmptyString
  | cons ebp l' => frame_text ebp ++ frames_text l'
  end.

(** The six words of the frame at [ebp]: the link, the return address and
    four more. *)
Definition frame_words (ebp : Z) : list Z :=
  map (word_addr ebp) [0; 1; 2; 3; 4; 5]%list.

(** The stack accesses made for the frame at [ebp], in program order. *)
Definition frame_reads (ebp : Z) : list Z :=
  map (word_addr ebp) [1; 2; 3; 4; 5; 1; 1; 0]%list.

Definition read_words (w : World) (l : list Z) : World :=
  mkWorld (console w) (pt_queries w) (mem_reads w ++ l)%list.

(** The world after the frames [l] were printed in turn. *)
Definition unwound {machine : Machine} (w : World) (l : list Z) : World :=
  mkWorld (console w ++ frames_text l) (pt_queries w)
          (mem_reads w ++ flat_map frame_reads l)%list.

(** ** Reference definitions for the page range *)

(** The line printed for the page at [va]. *)
Definition page_text {machine : Machine} (va : Z) : string :=
  match page_table_entry va with
  | None => "va 0x" ++ fmt_08x va ++ " -> unmapped" ++ nl
  | Some pte =>
      mapped_prefix va pte
        ++ (if beyond_memory pte then " (no physical memory present)" else "")
        ++ nl
  end.

Fixpoint pages_text {machine : Machine} (vas : list Z) : string :=
  match vas with
  | nil => EmptyString
  | cons va vas' => page_text va ++ pages_text vas'
  end.

(** The world after the pages [vas] were examined in turn. *)
Definition examined {machine : Machine} (w : World) (vas : list Z) : World :=
  emit (queried w vas) (pages_text vas).

(** The highest page-aligned 32-bit address. *)
Definition TOP_PAGE : Z := 0xFFFFF000.

(** The [n] page addresses from [va] on, in 32-bit arithmetic. *)
Fixpoint pages_from (n : nat) (va : Z) : list Z :=
  match n with
  | O => []
  | S n' => va :: pages_from n' (wrap32 (va + PGSIZE))
  end%list.

(** The page-aligned addresses from [va_start] to [va_end] inclusive, in
    increasing order. *)
Definition page_range (va_start va_end : Z) : list Z :=
  if va_start <=? va_end
  then map (fun k => va_start + PGSIZE * Z.of_nat k)
           (seq 0 (Z.to_nat ((va_end - va_start) / PGSIZE + 1)))
  else []%list.

(** ** Reference definitions for the dispatcher and the session *)

Fixpoint string_forallb (f : ascii -> bool) (s : string) : bool :=
  match s with
  | EmptyString => true
  | String c s' => f c && string_forallb f s'
  end.

(** A character that can stand in an argument: neither whitespace nor
    NUL. *)
Definition arg_char (c : ascii) : bool :=
  negb (whitespace c) && negb (c =? NUL)%char.

(** A non-empty string of argument characters. *)
Definition well_formed_arg (a : string) : bool :=
  nonempty a && string_forallb arg_char a.

(** The first token of a line, the empty string when there is none. *)
Definition first_token (line : string) : string := arg (runs line) 0.

(** The command of the line is neither [pagemappings] nor [memconst]. *)
Definition keeps_session (line : string) : bool :=
  negb (first_token line =? "pagemappings")%string
  && negb (first_token line =? "memconst")%string.

(** The status a result carries, the command that can produce it, and
    the parts of the world the command leaves alone. *)
Definition outcome_of (cmd : string) (w : World) (r : option Z * World) : Prop :=
  match fst r with
  | Some status =>
      status = 0
      \/ (status = -1 /\ (cmd = "pagemappings" \/ cmd = "memconst"))
  | None => cmd = "backtrace" \/ cmd = "pagemappings"
  end
  /\ (cmd <> "pagemappings" -> pt_queries (snd r) = pt_queries w)
  /\ (cmd <> "backtrace" -> mem_reads (snd r) = mem_reads w).

(** The symbol lines printed by [kerninfo]. *)
Definition kernel_symbols_text {machine : Machine} : string :=
  "Special kernel symbols:" ++ nl
    ++ "  _start                  " ++ fmt_08x _start ++ " (phys)" ++ nl
    ++ "  entry  " ++ fmt_08x entry ++ " (virt)  "
    ++ fmt_08x (entry - KERNBASE) ++ " (phys)" ++ nl
    ++ "  etext  " ++ fmt_08x etext ++ " (virt)  "
    ++ fmt_08x (etext - KERNBASE) ++ " (phys)" ++ nl
    ++ "  edata  " ++ fmt_08x edata ++ " (virt)  "
    ++ fmt_08x (edata - KERNBASE) ++ " (phys)" ++ nl
    ++ "  end    " ++ fmt_08x end_ ++ " (virt)  "
    ++ fmt_08x (end_ - KERNBASE) ++ " (phys)" ++ nl.

(** One line per entry of [commands], in table order. *)
Definition help_text {machine : Machine} : string :=
  String.concat ""
    (map (fun c => name c ++ " - " ++ desc c ++ nl) commands).

(** ** A concrete machine

    One instance of [Machine], used to run the model on concrete input. *)

Definition digit_value (c : ascii) : option Z :=
  let n := uchar c in
  if (48 <=? n) && (n <=? 57) then Some (n - 48)
  else if (97 <=? n) && (n <=? 122) then Some (n - 97 + 10)
  else if (65 <=? n) && (n <=? 90) then Some (n - 65 + 10)
  else None.

Fixpoint strtol_digits (base : Z) (s : string) (val : Z) (off : nat) : Z * nat :=
  match s with
  | String c s' =>
      match digit_value c with
      | Some d =>
          if d <? base then strtol_digits base s' (val * base + d) (S off)
          else (val, off)
      | None => (val, off)
      end
  | EmptyString => (val, off)
  end.

(** Modelled from the spec: [strtol(s, &str_end, 0)] (lib/string.c), which
    parses an integer accepting the standard base prefixes: hexadecimal
    [0x], octal [0], else decimal.  The result is the value and the offset
    at which parsing stopped. *)
Definition sample_strtol (s : string) : Z * nat :=
  match s with
  | String "0" (String "x" s') => strtol_digits 16 s' 0 2
  | String "0" s' => strtol_digits 8 s' 0 1
  | _ => strtol_digits 10 s 0 0
  end.

Definition sample_page_table (va : Z) : option Z :=
  if va =? 0x1000 then Some 0x00002007
  else if va =? 0x2000 then Some 0xFFFFF1E3
  else if va =? 0x3000 then Some 0x00005000
  else None.

Fixpoint assoc_word (l : list (Z * Z)) (a : Z) : Z :=
  match l with
  | [] => 0
  | (k, v) :: l' => if k =? a then v else assoc_word l' a
  end%list.

(** Three stack frames linked through their first words, the last link
    being zero. *)
Definition sample_stack : list (Z * Z) :=
  [ (0xF010FF00, 0xF010FF40); (0xF010FF04, 0xF0100068);
    (0xF010FF08, 1); (0xF010FF0C, 2); (0xF010FF10, 3); (0xF010FF14, 4);
    (0xF010FF40, 0xF010FF80); (0xF010FF44, 0xF01000A4);
    (0xF010FF48, 5); (0xF010FF4C, 6); (0xF010FF50, 7); (0xF010FF54, 8);
    (0xF010FF80, 0); (0xF010FF84, 0xF010003E);
    (0xF010FF88, 9); (0xF010FF8C, 10); (0xF010FF90, 11); (0xF010FF94, 12) ]%list.

Definition sample_fn_name (i : nat) : ascii :=
  match String.get i "<unknown>" with
  | Some c => c
  | None => NUL
  end.

Definition sample_debuginfo (eip : Z) : Eipdebuginfo :=
  mkEipdebuginfo "<unknown>" 0 sample_fn_name 9 eip 0.

Definition sample_machine : Machine := {|
  KERNBASE := 0xF0000000; IOPHYSMEM := 0x0A0000; EXTPHYSMEM := 0x100000;
  KSTACKTOP := 0xF0000000; KSTKSIZE := 0x8000; KSTKGAP := 0x8000;
  MMIOLIM := 0xEFC00000; MMIOBASE := 0xEF800000; ULIM := 0xEF800000;
  UVPT := 0xEF400000; UPAGES := 0xEF000000; UENVS := 0xEEC00000;
  UTOP := 0xEEC00000; UXSTACKTOP := 0xEEC00000; USTACKTOP := 0xEEBFE000;
  UTEXT := 0x800000; UTEMP := 0x400000; PFTEMP := 0x7FF000;
  USTABDATA := 0x200000;
  PTE_P := 0x001; PTE_W := 0x002; PTE_U := 0x004; PTE_PWT := 0x008;
  PTE_PCD := 0x010; PTE_A := 0x020; PTE_D := 0x040; PTE_PS := 0x080;
  PTE_G := 0x100;
  _start := 0x0010000C; entry := 0xF010000C; etext := 0xF0101A75;
  edata := 0xF0112300; end_ := 0xF0112960;
  strtol := sample_strtol;
  page_table_entry := sample_page_table;
  npages := 0x8000;
  read_ebp := 0xF010FF00;
  mem := assoc_word sample_stack;
  debuginfo_eip := sample_debuginfo;
  print_trapframe := fun _ => "TRAP frame" ++ nl
|}.

(** The machine [m] with another stack memory and frame pointer. *)
Definition with_stack (m : Machine) (memory : Z -> Z) (ebp : Z) : Machine := {|
  KERNBASE := @KERNBASE m;
  IOPHYSMEM := @IOPHYSMEM m;
  EXTPHYSMEM := @EXTPHYSMEM m;
  KSTACKTOP := @KSTACKTOP m;
  KSTKSIZE := @KSTKSIZE m;
  KSTKGAP := @KSTKGAP m;
  MMIOLIM := @MMIOLIM m;
  MMIOBASE := @MMIOBASE m;
  ULIM := @ULIM m;
  UVPT := @UVPT m;
  UPAGES := @UPAGES m;
  UENVS := @UENVS m;
  UTOP := @UTOP m;
  UXSTACKTOP := @UXSTACKTOP m;
  USTACKTOP := @USTACKTOP m;
  UTEXT := @UTEXT m;
  UTEMP := @UTEMP m;
  PFTEMP := @PFTEMP m;
  USTABDATA := @USTABDATA m;
  PTE_P := @PTE_P m;
  PTE_W := @PTE_W m;
  PTE_U := @PTE_U m;
  PTE_PWT := @PTE_PWT m;
  PTE_PCD := @PTE_PCD m;
  PTE_A := @PTE_A m;
  PTE_D := @PTE_D m;
  PTE_PS := @PTE_PS m;
  PTE_G := @PTE_G m;
  _start := @_start m;
  entry := @entry m;
  etext := @etext m;
  edata := @edata m;
  end_ := @end_ m;
  strtol := @strtol m;
  page_table_entry := @page_table_entry m;
  npages := @npages m;
  read_ebp := ebp;
  mem := memory;
  debuginfo_eip := @debuginfo_eip m;
  print_trapframe := @print_trapframe m
|}.

(** Two stack frames whose links point at each other. *)
Definition cyclic_machine : Machine :=
  with_stack sample_machine
    (assoc_word [ (0xF010FF00, 0xF010FF40); (0xF010FF04, 0xF0100068);
                  (0xF010FF40, 0xF010FF00); (0xF010FF44, 0xF01000A4) ]%list)
    0xF010FF00.

(** The machine [m] with another page table. *)
Definition with_page_table (m : Machine) (table : Z -> option Z) : Machine := {|
  KERNBASE := @KERNBASE m;
  IOPHYSMEM := @IOPHYSMEM m;
  EXTPHYSMEM := @EXTPHYSMEM m;
  KSTACKTOP := @KSTACKTOP m;
  KSTKSIZE := @KSTKSIZE m;
  KSTKGAP := @KSTKGAP m;
  MMIOLIM := @MMIOLIM m;
  MMIOBASE := @MMIOBASE m;
  ULIM := @ULIM m;
  UVPT := @UVPT m;
  UPAGES := @UPAGES m;
  UENVS := @UENVS m;
  UTOP := @UTOP m;
  UXSTACKTOP := @UXSTACKTOP m;
  USTACKTOP := @USTACKTOP m;
  UTEXT := @UTEXT m;
  UTEMP := @UTEMP m;
  PFTEMP := @PFTEMP m;
  USTABDATA := @USTABDATA m;
  PTE_P := @PTE_P m;
  PTE_W := @PTE_W m;
  PTE_U := @PTE_U m;
  PTE_PWT := @PTE_PWT m;
  PTE_PCD := @PTE_PCD m;
  PTE_A := @PTE_A m;
  PTE_D := @PTE_D m;
  PTE_PS := @PTE_PS m;
  PTE_G := @PTE_G m;
  _start := @_start m;
  entry := @entry m;
  etext := @etext m;
  edata := @edata m;
  end_ := @end_ m;
  strtol := @strtol m;
  page_table_entry := table;
  npages := @npages m;
  read_ebp := @read_ebp m;
  mem := @mem m;
  debuginfo_eip := @debuginfo_eip m;
  print_trapframe := @print_trapframe m
|}.

Definition world0 : World := mkWorld "" [] [].

(** * Verification *)

(** ** Strings and the state monad *)

Lemma append_assoc (a b c : string) : (a ++ b) ++ c = a ++ (b ++ c).
Proof. induction a as [|x a IH]; simpl; [reflexivity | now rewrite IH]. Qed.

Lemma append_nil_r (a : string) : a ++ "" = a.
Proof. induction a as [|x a IH]; simpl; [reflexivity | now rewrite IH]. Qed.

Lemma emit_emit (w : World) (a b : string) : emit (emit w a) b = emit w (a ++ b).
Proof. unfold emit; simpl. now rewrite append_assoc. Qed.

Lemma emit_nil (w : World) : emit w "" = w.
Proof. destruct w; unfold emit; simpl. now rewrite append_nil_r. Qed.

Lemma cprintf_eq (s : string) (w : World) : cprintf s w = (Some tt, emit w s).
Proof. reflexivity. Qed.

Lemma bind_ret_l {A B : Type} (a : A) (k : A -> M B) (w : World) :
  bind (ret a) k w = k a w.
Proof. reflexivity. Qed.

Lemma bind_cprintf {B : Type} (s : string) (k : unit -> M B) (w : World) :
  bind (cprintf s) k w = k tt (emit w s).
Proof. reflexivity. Qed.

Lemma bind_assoc {A B C : Type} (c : M A) (f : A -> M B) (k : B -> M C)
    (w : World) :
  bind (bind c f) k w = bind c (fun x => bind (f x) k) w.
Proof. unfold bind. destruct (c w) as [[a|] w']; reflexivity. Qed.

(** Running the straight-line part of a computation. *)
Ltac mrun :=
  repeat (first [ rewrite bind_assoc | rewrite bind_ret_l
                | rewrite bind_cprintf | rewrite cprintf_eq
                | rewrite emit_emit ];
          cbv beta).

Lemma bind_some {A B : Type} (c : M A) (k : A -> M B) (w w' : World) (a : A) :
  c w = (Some a, w') -> bind c k w = k a w'.
Proof. intros H. unfold bind. now rewrite H. Qed.

Lemma bind_none {A B : Type} (c : M A) (k : A -> M B) (w w' : World) :
  c w = (None, w') -> bind c k w = (None, w').
Proof. intros H. unfold bind. now rewrite H. Qed.

(** ** The page-mapping inspector: one page *)

Section PageDetails.

Context {machine : Machine}.

Lemma concat_snoc (sep : string) (items : list string) (x : string) :
  String.concat sep (items ++ [x])%list =
  match items with
  | nil => x
  | cons _ _ => String.concat sep items ++ sep ++ x
  end.
Proof.
  induction items as [|y items IH]; [reflexivity|].
  destruct items as [|z items]; [reflexivity|].
  change (String.concat sep ((y :: z :: items) ++ [x])%list)
    with (y ++ sep ++ String.concat sep ((z :: items) ++ [x])%list).
  rewrite IH.
  change (String.concat sep (y :: z :: items)%list)
    with (y ++ sep ++ String.concat sep (z :: items)%list).
  now rewrite !append_assoc.
Qed.

(** One flag test of [show_page_details]: the items written so far grow
    by the mnemonic exactly when the flag is set, and stay comma-joined. *)
Lemma bind_show_flag {B : Type} (pte mask : Z) (text : string)
    (items : list string) (w0 : World) (base : string) (k : Z -> M B) :
  bind (show_flag pte mask text (comma_of items)) k
       (emit w0 (base ++ String.concat "," items)) =
  let items' := (items ++ item_if (negb (Z.land pte mask =? 0)) text)%list in
  k (comma_of items') (emit w0 (base ++ String.concat "," items')).
Proof.
  unfold show_flag. destruct (Z.land pte mask =? 0); simpl item_if; cbv zeta.
  - now rewrite app_nil_r.
  - unfold cprintf_sep. rewrite concat_snoc.
    destruct items as [|y items].
    + simpl comma_of. simpl Z.eqb. cbv iota. mrun.
      simpl String.concat. now rewrite append_nil_r.
    + simpl comma_of. simpl Z.eqb. cbv iota. mrun.
      now rewrite !append_assoc.
Qed.

Lemma flag_items (pte : Z) :
  (((((((((nil ++ item_if (flag_set pte Present) "P")
    ++ item_if (flag_set pte Writable) "W")
    ++ item_if (flag_set pte User) "U")
    ++ item_if (flag_set pte WriteThrough) "PWT")
    ++ item_if (flag_set pte CacheDisable) "PCD")
    ++ item_if (flag_set pte Accessed) "A")
    ++ item_if (flag_set pte Dirty) "D")
    ++ item_if (flag_set pte PageSize) "PS")
    ++ item_if (flag_set pte Global) "G")%list
  = map mnemonic (filter (flag_set pte) flag_order).
Proof.
  unfold flag_order. simpl filter.
  destruct (flag_set pte Present), (flag_set pte Writable),
    (flag_set pte User), (flag_set pte WriteThrough),
    (flag_set pte CacheDisable), (flag_set pte Accessed),
    (flag_set pte Dirty), (flag_set pte PageSize), (flag_set pte Global);
    reflexivity.
Qed.

(** What [show_page_details] does for a page with a translation. *)
Lemma show_page_details_mapped (va pte : Z) (w : World) :
  page_table_entry va = Some pte ->
  show_page_details va w =
  (Some tt,
   emit (queried w [va])
     (mapped_prefix va pte
        ++ (if beyond_memory pte then " (no physical memory present)" else "")
        ++ nl)).
Proof.
  intros Hpte. unfold show_page_details, query_page_table_entry.
  unfold bind at 1. rewrite Hpte.
  change (mkWorld (console w) (pt_queries w ++ [va]) (mem_reads w))
    with (queried w [va]).
  rewrite bind_cprintf, bind_ret_l.
  set (base := "va 0x" ++ fmt_08x va ++ " -> pa 0x" ++ fmt_08x (PTE_ADDR pte) ++ " [").
  replace (emit (queried w [va]) base)
    with (emit (queried w [va]) (base ++ String.concat "," nil))
    by (simpl String.concat; now rewrite append_nil_r).
  change 0 with (comma_of nil) at 1.
  rewrite !bind_show_flag. cbv zeta.
  change (negb (Z.land pte PTE_P =? 0)) with (flag_set pte Present).
  change (negb (Z.land pte PTE_W =? 0)) with (flag_set pte Writable).
  change (negb (Z.land pte PTE_U =? 0)) with (flag_set pte User).
  change (negb (Z.land pte PTE_PWT =? 0)) with (flag_set pte WriteThrough).
  change (negb (Z.land pte PTE_PCD =? 0)) with (flag_set pte CacheDisable).
  change (negb (Z.land pte PTE_A =? 0)) with (flag_set pte Accessed).
  change (negb (Z.land pte PTE_D =? 0)) with (flag_set pte Dirty).
  change (negb (Z.land pte PTE_PS =? 0)) with (flag_set pte PageSize).
  change (negb (Z.land pte PTE_G =? 0)) with (flag_set pte Global).
  rewrite flag_items. fold (flag_list pte). fold (beyond_memory pte).
  unfold mapped_prefix. subst base.
  destruct (beyond_memory pte); mrun; now rewrite ?append_assoc.
Qed.

Lemma show_page_details_unmapped (va : Z) (w : World) :
  page_table_entry va = None ->
  show_page_details va w =
  (Some tt, emit (queried w [va]) ("va 0x" ++ fmt_08x va ++ " -> unmapped" ++ nl)).
Proof.
  intros Hpte. unfold show_page_details, query_page_table_entry.
  unfold bind at 1. now rewrite Hpte.
Qed.

End PageDetails.

(** ** The page-mapping inspector: the range *)

Section PageRange.

Context {machine : Machine}.

Lemma show_page_details_eq (va : Z) (w : World) :
  show_page_details va w = (Some tt, examined w [va]).
Proof.
  unfold examined, pages_text, page_text. rewrite append_nil_r.
  destruct (page_table_entry va) as [pte|] eqn:Hpte.
  - now apply show_page_details_mapped.
  - now apply show_page_details_unmapped.
Qed.

Lemma examined_nil (w : World) : examined w [] = w.
Proof.
  destruct w. unfold examined, emit, queried; simpl.
  now rewrite app_nil_r, append_nil_r.
Qed.

Lemma examined_cons (w : World) (va : Z) (vas : list Z) :
  examined (examined w [va]) vas = examined w (va :: vas).
Proof.
  unfold examined, emit, queried; simpl.
  rewrite append_nil_r, append_assoc. now rewrite <- app_assoc.
Qed.

Lemma pagemappings_loop_step (fuel : nat) (va_start va_end : Z) (w : World) :
  va_start <= va_end ->
  pagemappings_loop (S fuel) va_start va_end w =
  pagemappings_loop fuel (wrap32 (va_start + PGSIZE)) va_end (examined w [va_start]).
Proof.
  intros H. simpl. apply Z.leb_le in H. rewrite H.
  now rewrite (bind_some _ _ _ _ _ (show_page_details_eq va_start w)).
Qed.

Lemma pagemappings_loop_exit (fuel : nat) (va_start va_end : Z) (w : World) :
  va_end < va_start ->
  pagemappings_loop fuel va_start va_end w = (Some tt, w).
Proof.
  intros H. apply Z.leb_gt in H. destruct fuel; simpl; now rewrite H.
Qed.

(** A range that ends below the top page is walked page by page and the
    loop stops: [n] is the number of pages from [va_start] to [va_end]. *)
Lemma pagemappings_loop_pages (n fuel : nat) (va_start va_end : Z) (w : World) :
  (n <= fuel)%nat ->
  0 <= va_start ->
  va_start + PGSIZE * Z.of_nat n = va_end + PGSIZE ->
  va_end + PGSIZE < 2 ^ 32 ->
  pagemappings_loop fuel va_start va_end w =
  (Some tt, examined w (pages_from n va_start)).
Proof.
  unfold PGSIZE. revert fuel va_start w.
  induction n as [|n IH]; intros fuel va_start w Hfuel H0 Hend Htop.
  - simpl pages_from. rewrite examined_nil.
    apply pagemappings_loop_exit. lia.
  - destruct fuel as [|fuel]; [lia|].
    rewrite pagemappings_loop_step by lia.
    assert (Hw : wrap32 (va_start + PGSIZE) = va_start + 4096).
    { unfold wrap32, PGSIZE. apply Z.mod_small. lia. }
    rewrite Hw, IH by lia.
    simpl pages_from. now rewrite Hw, examined_cons.
Qed.

Lemma wrap32_range (z : Z) : 0 <= wrap32 z < 2 ^ 32.
Proof. unfold wrap32. apply Z.mod_pos_bound. lia. Qed.

Lemma wrap32_small (z : Z) : 0 <= z < 2 ^ 32 -> wrap32 z = z.
Proof. unfold wrap32. apply Z.mod_small. Qed.

Lemma next_page_aligned (va : Z) :
  va mod PGSIZE = 0 -> wrap32 (va + PGSIZE) mod PGSIZE = 0.
Proof.
  unfold wrap32, PGSIZE. intros H.
  assert (E : va = 4096 * (va / 4096)) by (apply Z.div_exact; lia).
  rewrite E. set (q := va / 4096).
  replace (4096 * q + 4096) with (4096 * (q + 1)) by lia.
  change (2 ^ 32) with (4096 * 1048576).
  rewrite Zmult_mod_distr_l.
  rewrite Z.mul_comm. apply Z_mod_mult.
Qed.

Lemma aligned_le_top (va : Z) :
  0 <= va < 2 ^ 32 -> va mod PGSIZE = 0 -> va <= TOP_PAGE.
Proof.
  unfold PGSIZE, TOP_PAGE. intros R H.
  assert (E : va = 4096 * (va / 4096)) by (apply Z.div_exact; lia).
  assert (va / 4096 < 1048576) by (apply Z.div_lt_upper_bound; lia).
  lia.
Qed.

(** A range that ends at the top page is never left: every page-aligned
    address is at most [va_end], and the increment wraps around. *)
Lemma pagemappings_loop_top (fuel : nat) (va_start : Z) (w : World) :
  0 <= va_start < 2 ^ 32 ->
  va_start mod PGSIZE = 0 ->
  pagemappings_loop fuel va_start TOP_PAGE w =
  (None, examined w (pages_from fuel va_start)).
Proof.
  revert va_start w. induction fuel as [|fuel IH]; intros va_start w R A.
  - simpl. assert (H := aligned_le_top va_start R A).
    apply Z.leb_le in H. rewrite H. now rewrite examined_nil.
  - rewrite pagemappings_loop_step by now apply aligned_le_top.
    rewrite IH by (auto using wrap32_range, next_page_aligned).
    simpl pages_from. now rewrite examined_cons.
Qed.

Lemma page_mask_spec (x : Z) :
  page_mask x = PGSIZE * (wrap32 x / PGSIZE).
Proof.
  unfold page_mask, PGSIZE. set (y := wrap32 x).
  assert (H : Z.land y (wrap32 (Z.lnot 4095)) = Z.ldiff y (Z.ones 12)).
  { apply Z.bits_inj'. intros n Hn.
    rewrite Z.land_spec, Z.ldiff_spec.
    destruct (Z.ltb_spec n 32) as [Hlt|Hge].
    - unfold wrap32 at 1. rewrite Z.mod_pow2_bits_low by lia.
      now rewrite Z.lnot_spec by lia.
    - subst y. unfold wrap32 at 1 3.
      now rewrite Z.mod_pow2_bits_high by lia. }
  rewrite H, Z.ldiff_ones_r by lia.
  rewrite Z.shiftl_mul_pow2, Z.shiftr_div_pow2 by lia.
  change (2 ^ 12) with 4096. lia.
Qed.

Lemma page_mask_range (x : Z) : 0 <= page_mask x < 2 ^ 32.
Proof.
  rewrite page_mask_spec. unfold PGSIZE.
  assert (R := wrap32_range x).
  assert (H := Z.mul_div_le (wrap32 x) 4096).
  assert (0 <= wrap32 x / 4096) by (apply Z.div_pos; lia).
  lia.
Qed.

Lemma page_mask_aligned (x : Z) : page_mask x mod PGSIZE = 0.
Proof.
  rewrite page_mask_spec. rewrite Z.mul_comm. apply Z_mod_mult.
Qed.

End PageRange.

(** ** C strings *)

Lemma uchar_zero (c : ascii) : uchar c = 0 -> c = NUL.
Proof.
  unfold uchar. intros H.
  assert (E : N_of_ascii c = N_of_ascii NUL) by (simpl; lia).
  rewrite <- (ascii_N_embedding c), E. reflexivity.
Qed.

Lemma uchar_inj (a b : ascii) : uchar a - uchar b = 0 -> a = b.
Proof.
  unfold uchar. intros H.
  assert (E : N_of_ascii a = N_of_ascii b) by lia.
  rewrite <- (ascii_N_embedding a), E. apply ascii_N_embedding.
Qed.

(** On C strings [strcmp] returns zero exactly for equal strings. *)
Lemma strcmp_eqb (p q : string) :
  nul_free p = true -> nul_free q = true ->
  (strcmp p q =? 0) = (p =? q)%string.
Proof.
  revert q. induction p as [|a p IH]; intros [|b q] Hp Hq; simpl in *.
  - reflexivity.
  - apply andb_prop in Hq as [Hb _]. apply negb_true_iff in Hb.
    apply Z.eqb_neq. intros H. apply Ascii.eqb_neq in Hb. apply Hb.
    apply uchar_zero. lia.
  - apply andb_prop in Hp as [Ha _]. apply negb_true_iff in Ha.
    apply Z.eqb_neq. intros H. apply Ascii.eqb_neq in Ha. apply Ha.
    now apply uchar_zero.
  - apply andb_prop in Hp as [_ Hp]. apply andb_prop in Hq as [_ Hq].
    destruct (Ascii.eqb_spec a b) as [E|N].
    + now apply IH.
    + apply Z.eqb_neq. intros H. apply N. now apply uchar_inj.
Qed.

Lemma strfind_nul_free (s : string) :
  nul_free s = true -> strfind s NUL = String.length s.
Proof.
  induction s as [|c s IH]; simpl; [reflexivity|]. intros H.
  apply andb_prop in H as [Hc Hs]. apply negb_true_iff in Hc.
  rewrite Hc. now rewrite IH.
Qed.

(** ** The handlers' argument validation *)

Section Validation.

Context {machine : Machine}.

Lemma mon_pagemappings_too_few (fuel : nat) (argc : Z) (argv : list string)
    (tf : Z) (w : World) :
  argc < 2 ->
  mon_pagemappings fuel argc argv tf w =
  (Some (-1), emit w ("pagemappings expects at least one argument" ++ nl)).
Proof.
  intros H. unfold mon_pagemappings. apply Z.ltb_lt in H. now rewrite H.
Qed.

Lemma mon_pagemappings_too_many (fuel : nat) (argc : Z) (argv : list string)
    (tf : Z) (w : World) :
  3 < argc ->
  mon_pagemappings fuel argc argv tf w =
  (Some (-1), emit w ("pagemappings expects at most two arguments" ++ nl)).
Proof.
  intros H. unfold mon_pagemappings.
  assert (H2 : (argc <? 2) = false) by (apply Z.ltb_ge; lia).
  assert (H3 : (argc >? 3) = true) by (rewrite Z.gtb_ltb; apply Z.ltb_lt; lia).
  now rewrite H2, H3.
Qed.

Lemma mon_pagemappings_first_unparsed (fuel : nat) (argc : Z)
    (argv : list string) (tf : Z) (w : World) :
  2 <= argc <= 3 ->
  parses (arg argv 1) = false ->
  mon_pagemappings fuel argc argv tf w =
  (Some (-1), emit w (parse_error "first" (arg argv 1))).
Proof.
  intros H P. unfold mon_pagemappings, parses in *.
  assert (H2 : (argc <? 2) = false) by (apply Z.ltb_ge; lia).
  assert (H3 : (argc >? 3) = false) by (rewrite Z.gtb_ltb; apply Z.ltb_ge; lia).
  rewrite H2, H3. destruct (strtol (arg argv 1)) as [v1 e1]; simpl in P.
  now rewrite P.
Qed.

Lemma mon_pagemappings_second_unparsed (fuel : nat) (argv : list string)
    (tf : Z) (w : World) :
  parses (arg argv 1) = true ->
  parses (arg argv 2) = false ->
  mon_pagemappings fuel 3 argv tf w =
  (Some (-1), emit w (parse_error "second" (arg argv 2))).
Proof.
  intros P1 P2. unfold mon_pagemappings, parses in *. simpl Z.ltb. simpl Z.gtb.
  simpl Z.eqb. cbv iota.
  destruct (strtol (arg argv 1)) as [v1 e1]; simpl in P1. rewrite P1.
  destruct (strtol (arg argv 2)) as [v2 e2]; simpl in P2. now rewrite P2.
Qed.

Lemma mon_pagemappings_one (fuel : nat) (argv : list string)
    (tf : Z) (w : World) :
  parses (arg argv 1) = true ->
  mon_pagemappings fuel 2 argv tf w =
  pagemappings_range fuel (wrap32 (fst (strtol (arg argv 1))))
    (wrap32 (fst (strtol (arg argv 1)))) w.
Proof.
  intros P1. unfold mon_pagemappings, parses in *. simpl Z.ltb. simpl Z.gtb.
  simpl Z.eqb. cbv iota.
  destruct (strtol (arg argv 1)) as [v1 e1]; simpl in P1. now rewrite P1.
Qed.

Lemma mon_pagemappings_two (fuel : nat) (argv : list string)
    (tf : Z) (w : World) :
  parses (arg argv 1) = true ->
  parses (arg argv 2) = true ->
  mon_pagemappings fuel 3 argv tf w =
  pagemappings_range fuel (wrap32 (fst (strtol (arg argv 1))))
    (wrap32 (fst (strtol (arg argv 2)))) w.
Proof.
  intros P1 P2. unfold mon_pagemappings, parses in *. simpl Z.ltb. simpl Z.gtb.
  simpl Z.eqb. cbv iota.
  destruct (strtol (arg argv 1)) as [v1 e1]; simpl in P1. rewrite P1.
  destruct (strtol (arg argv 2)) as [v2 e2]; simpl in P2. now rewrite P2.
Qed.

Lemma get_va_ref_point_table (n : string) :
  nul_free n = true ->
  get_va_ref_point n = option_map wrap32 (table_lookup constant_table n).
Proof.
  intros Hn. unfold get_va_ref_point.
  rewrite !(strcmp_eqb n) by (assumption || reflexivity).
  unfold constant_table, table_lookup.
  repeat (destruct (n =? _)%string; [reflexivity|]). reflexivity.
Qed.

Lemma table_lookup_in (n : string) (v : Z) :
  In (n, v) constant_table -> table_lookup constant_table n = Some v.
Proof.
  unfold constant_table. intros H.
  repeat (destruct H as [H|H]; [injection H as <- <-; reflexivity|]).
  destruct H.
Qed.

Lemma table_lookup_not_in (t : list (string * Z)) (n : string) :
  ~ In n (map fst t) -> table_lookup t n = None.
Proof.
  induction t as [|[k v] t IH]; simpl; [reflexivity|]. intros H.
  destruct (String.eqb_spec n k) as [E|N].
  - exfalso. apply H. now left.
  - apply IH. intros HI. apply H. now right.
Qed.

Lemma mon_memconst_argc (fuel : nat) (argc : Z) (argv : list string)
    (tf : Z) (w : World) :
  argc <> 2 ->
  mon_memconst fuel argc argv tf w =
  (Some (-1), emit w ("memconst expects a single argument" ++ nl)).
Proof.
  intros H. unfold mon_memconst.
  assert (E : (2 =? argc) = false) by (apply Z.eqb_neq; lia).
  now rewrite E.
Qed.

Lemma mon_memconst_known (fuel : nat) (argv : list string) (tf : Z)
    (w : World) (v : Z) :
  get_va_ref_point (arg argv 1) = Some v ->
  mon_memconst fuel 2 argv tf w =
  (Some 0, emit w (arg argv 1 ++ ": 0x" ++ fmt_08x v ++ nl)).
Proof. intros H. unfold mon_memconst. simpl. now rewrite H. Qed.

Lemma mon_memconst_unknown (fuel : nat) (argv : list string) (tf : Z)
    (w : World) :
  get_va_ref_point (arg argv 1) = None ->
  mon_memconst fuel 2 argv tf w =
  (Some (-1),
   emit w ("memconst: unknown memory constant '" ++ arg argv 1 ++ "'" ++ nl)).
Proof. intros H. unfold mon_memconst. simpl. now rewrite H. Qed.

End Validation.

(** ** The tokenizer *)

Lemma at_whitespace_spec (c : ascii) : at_whitespace c = whitespace c.
Proof. destruct c as [[] [] [] [] [] [] [] []]; reflexivity. Qed.

Lemma at_argument_spec (c : ascii) :
  at_argument c = negb (c =? NUL)%char && negb (whitespace c).
Proof. destruct c as [[] [] [] [] [] [] [] []]; reflexivity. Qed.

Lemma runs_whitespace (c : ascii) (s : string) :
  whitespace c = true -> runs (String c s) = runs s.
Proof. intros H. unfold runs. simpl. now rewrite H. Qed.

Lemma gobble_runs (buf : string) : runs (gobble buf) = runs buf.
Proof.
  induction buf as [|c buf IH]; simpl; [reflexivity|].
  destruct (at_whitespace c) eqn:E; [|reflexivity].
  rewrite at_whitespace_spec in E. now rewrite runs_whitespace.
Qed.

Lemma gobble_nul_free (buf : string) :
  nul_free buf = true -> nul_free (gobble buf) = true.
Proof.
  induction buf as [|c buf IH]; simpl; [reflexivity|]. intros H.
  destruct (at_whitespace c); [|exact H].
  apply andb_prop in H as [_ H]. now apply IH.
Qed.

Lemma gobble_stops (buf : string) : at_whitespace (deref (gobble buf)) = false.
Proof.
  induction buf as [|c buf IH]; simpl; [reflexivity|].
  destruct (at_whitespace c) eqn:E; [exact IH | exact E].
Qed.

(** The argument scanned is the next piece of the line. *)
Lemma scan_arg_split (s a r : string) :
  nul_free s = true ->
  scan_arg s = (a, r) ->
  split_ws s = (a :: tl (split_ws r))%list
  /\ hd EmptyString (split_ws r) = EmptyString
  /\ split_ws r <> nil
  /\ nul_free r = true.
Proof.
  revert a r. induction s as [|c s IH]; intros a r Hs Hscan.
  - injection Hscan as <- <-. simpl. repeat split; congruence.
  - simpl in Hs. apply andb_prop in Hs as [Hc Hs].
    simpl in Hscan. rewrite at_argument_spec, Hc in Hscan. simpl in Hscan.
    destruct (whitespace c) eqn:W; simpl in Hscan.
    + injection Hscan as <- <-. simpl. rewrite W. simpl.
      repeat split; try congruence. now rewrite Hc.
    + destruct (scan_arg s) as [a' r'] eqn:E. injection Hscan as <- <-.
      destruct (IH a' r' Hs eq_refl) as (H1 & H2 & H3 & H4).
      simpl. rewrite W, H1. repeat split; assumption.
Qed.

Lemma scan_arg_runs (c : ascii) (s a r : string) :
  nul_free (String c s) = true ->
  at_argument c = true ->
  scan_arg (String c s) = (a, r) ->
  runs (String c s) = (a :: runs r)%list /\ nul_free r = true.
Proof.
  intros Hs Hc Hscan.
  destruct (scan_arg_split _ _ _ Hs Hscan) as (H1 & H2 & H3 & H4).
  split; [|exact H4]. unfold runs. rewrite H1.
  simpl in Hscan. rewrite Hc in Hscan.
  destruct (scan_arg s) as [a' r']. injection Hscan as <- <-.
  simpl. destruct (split_ws r') as [|p ps]; [congruence|].
  simpl in H2. subst p. reflexivity.
Qed.

Section Tokenizer.

Context {machine : Machine}.

(** What one iteration of the parsing loop sees after gobbling
    whitespace: the end of the line, or the first byte of an argument. *)
Lemma gobble_cases (buf : string) :
  nul_free buf = true ->
  (gobble buf = EmptyString /\ runs buf = nil)
  \/ (exists c s a r,
        gobble buf = String c s /\ (c =? NUL)%char = false
        /\ scan_arg (String c s) = (a, r)
        /\ runs buf = (a :: runs r)%list /\ nul_free r = true).
Proof.
  intros Hn. assert (Hg := gobble_nul_free buf Hn).
  assert (Hst := gobble_stops buf). rewrite <- (gobble_runs buf).
  destruct (gobble buf) as [|c s] eqn:E.
  - left. split; reflexivity.
  - right. simpl in Hst.
    assert (Hc : (c =? NUL)%char = false).
    { simpl in Hg. apply andb_prop in Hg as [Hg _]. now apply negb_true_iff. }
    assert (Ha : at_argument c = true).
    { rewrite at_argument_spec, Hc. rewrite at_whitespace_spec in Hst.
      now rewrite Hst. }
    destruct (scan_arg (String c s)) as [a r] eqn:Es.
    exists c, s, a, r.
    destruct (scan_arg_runs c s a r Hg Ha Es) as [H1 H2].
    repeat split; assumption.
Qed.

Lemma parse_loop_S (fuel : nat) (buf : string) (argc : Z) (argv : list string) :
  parse_loop (S fuel) buf argc argv =
  if (deref (gobble buf) =? NUL)%char then ret (Break argc argv)
  else if argc =? MAXARGS - 1 then
    cprintf ("Too many arguments (max " ++ fmt_d MAXARGS ++ ")" ++ nl) ;;
    ret (Return 0)
  else
    parse_loop fuel (snd (scan_arg (gobble buf))) (argc + 1)
      (argv ++ [fst (scan_arg (gobble buf))])%list.
Proof. simpl. now destruct (scan_arg (gobble buf)). Qed.

(** A line of at most 15 arguments: the loop is left by [break] with the
    runs of the line appended to the arguments found before. *)
Lemma parse_loop_fits (fuel : nat) (buf : string) (argv : list string)
    (w : World) :
  nul_free buf = true ->
  (length argv + length (runs buf) <= 15)%nat ->
  (length (runs buf) < fuel)%nat ->
  parse_loop fuel buf (Z.of_nat (length argv)) argv w =
  (Some (Break (Z.of_nat (length argv + length (runs buf)))
           (argv ++ runs buf)%list), w).
Proof.
  revert buf argv. induction fuel as [|fuel IH]; intros buf argv Hn Hfit Hfuel.
  - lia.
  - rewrite parse_loop_S.
    destruct (gobble_cases buf Hn) as [[Hg Hr]|(c & s & a & r & Hg & Hc & Hs & Hr & Hnr)].
    + rewrite Hg, Hr. simpl. now rewrite Nat.add_0_r, app_nil_r.
    + rewrite Hg, Hr in *. change (deref (String c s)) with c. rewrite Hc. simpl length in *.
      assert (E : (Z.of_nat (length argv) =? MAXARGS - 1) = false)
        by (apply Z.eqb_neq; unfold MAXARGS; lia).
      rewrite E, Hs. simpl fst. simpl snd.
      replace (Z.of_nat (length argv) + 1)
        with (Z.of_nat (length (argv ++ [a])%list))
        by (rewrite length_app; simpl; lia).
      rewrite IH; try assumption.
      * rewrite length_app. simpl length.
        replace (length argv + 1 + length (runs r))%nat
          with (length argv + S (length (runs r)))%nat by lia.
        now rewrite <- app_assoc.
      * rewrite length_app. simpl. lia.
      * lia.
Qed.

(** A line of more than 15 arguments: the loop is left by [return 0] at
    the 16th argument, after at most 16 iterations. *)
Lemma parse_loop_too_many (fuel : nat) (buf : string) (argv : list string)
    (w : World) :
  nul_free buf = true ->
  (length argv <= 15)%nat ->
  (15 < length argv + length (runs buf))%nat ->
  (16 - length argv <= fuel)%nat ->
  parse_loop fuel buf (Z.of_nat (length argv)) argv w =
  (Some (Return 0), emit w too_many_arguments).
Proof.
  revert buf argv. induction fuel as [|fuel IH]; intros buf argv Hn Hlen Hmany Hfuel.
  - lia.
  - rewrite parse_loop_S.
    destruct (gobble_cases buf Hn) as [[Hg Hr]|(c & s & a & r & Hg & Hc & Hs & Hr & Hnr)].
    + rewrite Hr in Hmany. simpl in Hmany. lia.
    + rewrite Hg. rewrite Hr in Hmany. change (deref (String c s)) with c. rewrite Hc. simpl length in *.
      destruct (Z.eqb_spec (Z.of_nat (length argv)) (MAXARGS - 1)) as [E|N].
      * reflexivity.
      * unfold MAXARGS in N. rewrite Hs. simpl fst. simpl snd.
        replace (Z.of_nat (length argv) + 1)
          with (Z.of_nat (length (argv ++ [a])%list))
          by (rewrite length_app; simpl; lia).
        apply IH; try assumption; rewrite length_app; simpl length; lia.
Qed.

End Tokenizer.

(** ** The dispatcher and the interpreter loop *)

Lemma split_ws_nul_free (s : string) :
  nul_free s = true -> Forall (fun t => nul_free t = true) (split_ws s).
Proof.
  induction s as [|c s IH]; simpl; intros H.
  - now repeat constructor.
  - apply andb_prop in H as [Hc Hs]. specialize (IH Hs).
    destruct (whitespace c).
    + now constructor.
    + destruct (split_ws s) as [|p ps].
      * repeat constructor. simpl. now rewrite Hc.
      * inversion IH; subst. constructor; [|assumption].
        simpl. now rewrite Hc.
Qed.

Lemma runs_nul_free (line : string) :
  nul_free line = true -> Forall (fun t => nul_free t = true) (runs line).
Proof.
  intros H. unfold runs. apply Forall_forall. intros t Ht.
  apply filter_In in Ht as [Ht _].
  revert t Ht. apply Forall_forall. now apply split_ws_nul_free.
Qed.

Lemma all_whitespace_runs (line : string) :
  all_whitespace line = true -> nul_free line = true /\ runs line = nil.
Proof.
  induction line as [|c s IH]; simpl; intros H; [split; reflexivity|].
  apply andb_prop in H as [Hc Hs]. destruct (IH Hs) as [H1 H2].
  rewrite runs_whitespace, H1 by assumption. split; [|assumption].
  destruct c as [[] [] [] [] [] [] [] []]; try reflexivity; discriminate.
Qed.

Section Dispatcher.

Context {machine : Machine}.

Lemma runcmd_with_empty (cmds : list Command) (fuel : nat) (line : string)
    (tf : Z) (w : World) :
  nul_free line = true -> runs line = nil -> (0 < fuel)%nat ->
  runcmd_with cmds fuel line tf w = (Some 0, w).
Proof.
  intros Hn Hr Hf. unfold runcmd_with.
  rewrite (bind_some _ _ _ _ _ (parse_loop_fits fuel line nil w Hn
             ltac:(rewrite Hr; simpl; lia) ltac:(rewrite Hr; simpl; lia))).
  now rewrite Hr.
Qed.

Lemma runcmd_with_too_many (cmds : list Command) (fuel : nat) (line : string)
    (tf : Z) (w : World) :
  nul_free line = true -> (15 < length (runs line))%nat -> (16 <= fuel)%nat ->
  runcmd_with cmds fuel line tf w = (Some 0, emit w too_many_arguments).
Proof.
  intros Hn Hr Hf. unfold runcmd_with.
  now rewrite (bind_some _ _ _ _ _ (parse_loop_too_many fuel line nil w Hn
             ltac:(simpl; lia) ltac:(simpl; lia) ltac:(simpl; lia))).
Qed.

Lemma runcmd_with_args (cmds : list Command) (fuel : nat) (line : string)
    (tf : Z) (w : World) :
  nul_free line = true -> runs line <> nil ->
  (length (runs line) <= 15)%nat -> (length (runs line) < fuel)%nat ->
  runcmd_with cmds fuel line tf w =
  lookup_and_invoke cmds fuel (Z.of_nat (length (runs line))) (runs line) tf w.
Proof.
  intros Hn Hr Hfit Hf. unfold runcmd_with.
  rewrite (bind_some _ _ _ _ _ (parse_loop_fits fuel line nil w Hn
             ltac:(simpl; lia) Hf)).
  simpl app. simpl Nat.add.
  destruct (runs line) as [|t ts]; [congruence|].
  now destruct (Z.eqb_spec (Z.of_nat (length (t :: ts))) 0) as [E|_];
    [simpl in E; lia|].
Qed.

Lemma lookup_and_invoke_unknown (cmds : list Command) (fuel : nat) (argc : Z)
    (argv : list string) (tf : Z) (w : World) :
  nul_free (arg argv 0) = true ->
  Forall (fun c => nul_free (name c) = true) cmds ->
  ~ In (arg argv 0) (map name cmds) ->
  lookup_and_invoke cmds fuel argc argv tf w =
  (Some 0, emit w (unknown_command (arg argv 0))).
Proof.
  intros Ht Hcs Hnot. induction cmds as [|c cmds IH]; simpl.
  - reflexivity.
  - inversion Hcs as [|? ? Hc Hcs']; subst.
    rewrite strcmp_eqb by assumption.
    destruct (String.eqb_spec (arg argv 0) (name c)) as [E|N].
    + exfalso. apply Hnot. left. now symmetry.
    + apply IH; [assumption|]. intros HI. apply Hnot. now right.
Qed.

Lemma commands_names_nul_free :
  Forall (fun c => nul_free (name c) = true) commands.
Proof. repeat constructor. Qed.

Lemma monitor_loop_line (fuel : nat) (tf : Z) (line : string)
    (lines : list (option string)) (w w' : World) (status : Z) :
  runcmd fuel line tf (emit w "K> ") = (Some status, w') ->
  monitor_loop (S fuel) tf (Some line :: lines) w =
  if status <? 0 then (Some tt, w') else monitor_loop fuel tf lines w'.
Proof.
  intros H. simpl monitor_loop. unfold readline. mrun.
  rewrite (bind_some _ _ _ _ _ H). now destruct (status <? 0).
Qed.

End Dispatcher.

(** ** The stack unwinder *)

Section Unwinder.

Context {machine : Machine}.

Lemma print_chars_eq (s : nat -> ascii) (i n : nat) (w : World) :
  print_chars s i n w = (Some tt, emit w (chars s i n)).
Proof.
  revert i w. induction n as [|n IH]; intros i w; simpl.
  - now rewrite emit_nil.
  - rewrite bind_cprintf, IH, emit_emit. reflexivity.
Qed.

Lemma unwound_nil (w : World) : unwound w [] = w.
Proof.
  destruct w. unfold unwound; simpl. now rewrite append_nil_r, app_nil_r.
Qed.

Lemma unwound_cons (w : World) (ebp : Z) (l : list Z) :
  unwound (unwound w [ebp]) l = unwound w (ebp :: l).
Proof.
  unfold unwound; simpl.
  rewrite append_nil_r, append_assoc. now rewrite <- !app_assoc.
Qed.

(** One iteration of the loop of [mon_backtrace]. *)
Lemma backtrace_frame_eq (ebp : Z) (w : World) :
  backtrace_frame ebp w = (Some (word ebp 0), unwound w [ebp]).
Proof.
  unfold backtrace_frame.
  cbv [bind ref cprintf ret console pt_queries mem_reads].
  rewrite print_chars_eq.
  cbv [emit console pt_queries mem_reads].
  unfold unwound, frames_text, frame_text, frame_line, symbol_line, word.
  cbv [console pt_queries mem_reads flat_map frame_reads map].
  f_equal. f_equal.
  - now rewrite append_nil_r, !append_assoc.
  - now rewrite app_nil_r, <- !app_assoc.
Qed.

Lemma backtrace_loop_step (fuel : nat) (ebp : Z) (w : World) :
  0 < ebp ->
  backtrace_loop (S fuel) ebp w =
  backtrace_loop fuel (word ebp 0) (unwound w [ebp]).
Proof.
  intros H. simpl. apply Z.ltb_lt in H. rewrite H.
  now rewrite (bind_some _ _ _ _ _ (backtrace_frame_eq ebp w)).
Qed.

Lemma word_nonneg (ebp i : Z) : 0 <= word ebp i.
Proof. unfold word. apply wrap32_range. Qed.

(** A chain whose links reach zero after [n] frames is printed frame by
    frame and the loop stops. *)
Lemma backtrace_loop_frames (n fuel : nat) (ebp : Z) (w : World) :
  (n <= fuel)%nat ->
  0 <= ebp ->
  (forall k, (k < n)%nat -> nth_frame k ebp <> 0) ->
  nth_frame n ebp = 0 ->
  backtrace_loop fuel ebp w = (Some tt, unwound w (frame_chain n ebp)).
Proof.
  revert fuel ebp w.
  induction n as [|n IH]; intros fuel ebp w Hfuel H0 Hlive Hend.
  - simpl in Hend. subst ebp. rewrite unwound_nil. now destruct fuel.
  - destruct fuel as [|fuel]; [lia|].
    assert (Hne : nth_frame 0 ebp <> 0) by (apply Hlive; lia).
    simpl in Hne. rewrite backtrace_loop_step by lia.
    rewrite IH.
    + simpl frame_chain. now rewrite unwound_cons.
    + lia.
    + apply word_nonneg.
    + intros k Hk. apply (Hlive (S k)). lia.
    + exact Hend.
Qed.

(** While the links are non-zero the loop goes on, whatever the number
    of frames already printed. *)
Lemma backtrace_loop_goes_on (fuel : nat) (ebp : Z) (w : World) :
  0 <= ebp ->
  (forall k, (k <= fuel)%nat -> nth_frame k ebp <> 0) ->
  backtrace_loop fuel ebp w = (None, unwound w (frame_chain fuel ebp)).
Proof.
  revert ebp w. induction fuel as [|fuel IH]; intros ebp w H0 Hlive.
  - assert (Hne : nth_frame 0 ebp <> 0) by (apply Hlive; lia).
    simpl in Hne. simpl.
    assert (E : (0 <? ebp) = true) by (apply Z.ltb_lt; lia).
    now rewrite E, unwound_nil.
  - assert (Hne : nth_frame 0 ebp <> 0) by (apply Hlive; lia).
    simpl in Hne. rewrite backtrace_loop_step by lia.
    rewrite IH.
    + simpl frame_chain. now rewrite unwound_cons.
    + apply word_nonneg.
    + intros k Hk. apply (Hlive (S k)). lia.
Qed.

Lemma frame_chain_length (n : nat) (ebp : Z) : length (frame_chain n ebp) = n.
Proof.
  revert ebp. induction n as [|n IH]; intros ebp; simpl; [|rewrite IH]; reflexivity.
Qed.

Lemma frame_reads_words (ebp a : Z) :
  In a (frame_reads ebp) <-> In a (frame_words ebp).
Proof. unfold frame_reads, frame_words. simpl. tauto. Qed.

End Unwinder.

(** * The claims *)

(** C6.  For a page with a translation, [show_page_details] prints
    "va 0x<addr> -> pa 0x<phys>" followed by a bracketed list that holds
    exactly the mnemonics of the flags set in the translation, in the
    order P, W, U, PWT, PCD, A, D, PS, G, joined by commas with no
    trailing comma. *)
Theorem flag_list_printed {machine : Machine} (va pte : Z) (w : World) :
  page_table_entry va = Some pte ->
  show_page_details va w =
  (Some tt,
   emit (queried w [va])
     ("va 0x" ++ fmt_08x va ++ " -> pa 0x" ++ fmt_08x (PTE_ADDR pte)
        ++ " ["
        ++ String.concat "," (map mnemonic (filter (flag_set pte) flag_order))
        ++ "]"
        ++ (if beyond_memory pte then " (no physical memory present)" else "")
        ++ nl)).
Proof.
  intros Hpte. rewrite (show_page_details_mapped va pte w Hpte).
  unfold mapped_prefix, flag_list. now rewrite !append_assoc.
Qed.

Lemma flag_list_printed_witness :
  page_table_entry (Machine := sample_machine) 0x2000 = Some 0xFFFFF1E3
  /\ console (snd (show_page_details (machine := sample_machine) 0x2000 world0)) =
     "va 0x00002000 -> pa 0xfffff000 [P,W,A,D,PS,G] (no physical memory present)"
       ++ nl.
Proof.
  split; [reflexivity|].
  rewrite (flag_list_printed (machine := sample_machine) 0x2000 0xFFFFF1E3
             world0 eq_refl).
  vm_compute. reflexivity.
Defined.

(** C7.  A page without a translation is printed as exactly
    "va 0x<addr> -> unmapped"; for a page with a translation whose
    physical frame number is greater than or equal to [npages], the
    suffix " (no physical memory present)" is appended to its line (and
    it is not appended for a smaller frame number). *)
Theorem page_line_unmapped_or_beyond {machine : Machine} (va : Z) (w : World) :
  (page_table_entry va = None ->
   show_page_details va w =
   (Some tt,
    emit (queried w [va]) ("va 0x" ++ fmt_08x va ++ " -> unmapped" ++ nl)))
  /\ (forall pte,
        page_table_entry va = Some pte ->
        PGNUM (PTE_ADDR pte) >= wrap32 npages ->
        show_page_details va w =
        (Some tt,
         emit (queried w [va])
           (mapped_prefix va pte ++ " (no physical memory present)" ++ nl)))
  /\ (forall pte,
        page_table_entry va = Some pte ->
        PGNUM (PTE_ADDR pte) < wrap32 npages ->
        show_page_details va w =
        (Some tt, emit (queried w [va]) (mapped_prefix va pte ++ nl))).
Proof.
  split; [apply show_page_details_unmapped|].
  split; intros pte Hpte Hn; rewrite (show_page_details_mapped va pte w Hpte);
    unfold beyond_memory.
  - assert (E : (PGNUM (PTE_ADDR pte) >=? wrap32 npages) = true)
      by (rewrite Z.geb_leb; apply Z.leb_le; lia).
    now rewrite E.
  - assert (E : (PGNUM (PTE_ADDR pte) >=? wrap32 npages) = false)
      by (rewrite Z.geb_leb; apply Z.leb_gt; lia).
    now rewrite E.
Qed.

Lemma page_line_unmapped_or_beyond_witness :
  console (snd (show_page_details (machine := sample_machine) 0x4000 world0)) =
    "va 0x00004000 -> unmapped" ++ nl
  /\ console (snd (show_page_details (machine := sample_machine) 0x2000 world0)) =
    "va 0x00002000 -> pa 0xfffff000 [P,W,A,D,PS,G] (no physical memory present)"
      ++ nl
  /\ console (snd (show_page_details (machine := sample_machine) 0x1000 world0)) =
    "va 0x00001000 -> pa 0x00002000 [P,W,U]" ++ nl.
Proof.
  destruct (page_line_unmapped_or_beyond (machine := sample_machine) 0x4000 world0)
    as (H1 & _ & _).
  destruct (page_line_unmapped_or_beyond (machine := sample_machine) 0x2000 world0)
    as (_ & H2 & _).
  destruct (page_line_unmapped_or_beyond (machine := sample_machine) 0x1000 world0)
    as (_ & _ & H3).
  split; [|split].
  - rewrite (H1 eq_refl). vm_compute. reflexivity.
  - rewrite (H2 0xFFFFF1E3 eq_refl ltac:(vm_compute; discriminate)).
    vm_compute. reflexivity.
  - rewrite (H3 0x00002007 eq_refl ltac:(vm_compute; reflexivity)).
    vm_compute. reflexivity.
Defined.

(** C8.  [memconst] requires exactly one argument ([argc = 2]).  With
    one argument that is a name of the constant table it prints
    "<name>: 0x<value>", the value in hexadecimal, and returns 0; with a
    name that is not in the table it prints a message naming the unknown
    constant and returns -1; with any other argument count it prints an
    error and returns -1, whatever the arguments are. *)
Theorem memconst_contract {machine : Machine} (fuel : nat) (argc : Z)
    (argv : list string) (tf : Z) (w : World) :
  (argc <> 2 ->
   mon_memconst fuel argc argv tf w =
   (Some (-1), emit w ("memconst expects a single argument" ++ nl)))
  /\ (argc = 2 -> nul_free (arg argv 1) = true ->
      forall v, In (arg argv 1, v) constant_table ->
      mon_memconst fuel argc argv tf w =
      (Some 0, emit w (arg argv 1 ++ ": 0x" ++ fmt_08x v ++ nl)))
  /\ (argc = 2 -> nul_free (arg argv 1) = true ->
      ~ In (arg argv 1) (map fst constant_table) ->
      mon_memconst fuel argc argv tf w =
      (Some (-1),
       emit w ("memconst: unknown memory constant '" ++ arg argv 1 ++ "'" ++ nl))).
Proof.
  split; [apply mon_memconst_argc|].
  split.
  - intros -> Hn v Hin.
    rewrite (mon_memconst_known fuel argv tf w (wrap32 v)).
    + unfold fmt_08x, wrap32. now rewrite Z.mod_mod by lia.
    + rewrite get_va_ref_point_table by assumption.
      now rewrite (table_lookup_in _ _ Hin).
  - intros -> Hn Hnot. apply mon_memconst_unknown.
    rewrite get_va_ref_point_table by assumption.
    now rewrite table_lookup_not_in.
Qed.

Lemma memconst_contract_witness :
  mon_memconst (machine := sample_machine) O 3 ["memconst"; "UTOP"; "ULIM"] 0 world0 =
    (Some (-1), emit world0 ("memconst expects a single argument" ++ nl))
  /\ mon_memconst (machine := sample_machine) O 2 ["memconst"; "KERNBASE"] 0 world0 =
    (Some 0, emit world0 ("KERNBASE: 0xf0000000" ++ nl))
  /\ mon_memconst (machine := sample_machine) O 2 ["memconst"; "bogus"] 0 world0 =
    (Some (-1), emit world0 ("memconst: unknown memory constant 'bogus'" ++ nl)).
Proof.
  split; [|split].
  - apply (memconst_contract (machine := sample_machine) O 3
             ["memconst"; "UTOP"; "ULIM"] 0 world0).
    discriminate.
  - apply (proj1 (proj2 (memconst_contract (machine := sample_machine) O 2
                           ["memconst"; "KERNBASE"] 0 world0))
             eq_refl eq_refl 0xF0000000).
    left. reflexivity.
  - apply (proj2 (proj2 (memconst_contract (machine := sample_machine) O 2
                           ["memconst"; "bogus"] 0 world0))
             eq_refl eq_refl).
    vm_compute. intros H.
    repeat (destruct H as [H|H]; [discriminate H|]). exact H.
Defined.

(** C10.  When an argument of [pagemappings] fails numeric parsing,
    [mon_pagemappings] prints the message for that argument and returns
    -1 without any call to [page_table_entry]: no page is examined and no
    page line is printed.  This holds for the first argument and for the
    second argument after the first one parsed. *)
Theorem pagemappings_parse_error_no_query {machine : Machine} (fuel : nat)
    (argc : Z) (argv : list string) (tf : Z) (w : World) :
  2 <= argc <= 3 ->
  parses (arg argv 1) = false
  \/ (argc = 3 /\ parses (arg argv 2) = false) ->
  mon_pagemappings fuel argc argv tf w = (Some (-1), emit w (parse_error_of argv))
  /\ pt_queries (snd (mon_pagemappings fuel argc argv tf w)) = pt_queries w.
Proof.
  intros Hargc Hfail.
  assert (E : mon_pagemappings fuel argc argv tf w =
              (Some (-1), emit w (parse_error_of argv))).
  { unfold parse_error_of.
    destruct (parses (arg argv 1)) eqn:P1.
    - destruct Hfail as [Hf|[-> P2]]; [discriminate|].
      now apply mon_pagemappings_second_unparsed.
    - now apply mon_pagemappings_first_unparsed. }
  split; [exact E|]. now rewrite E.
Qed.

Lemma pagemappings_parse_error_no_query_witness :
  mon_pagemappings (machine := sample_machine) 9%nat 3
    ["pagemappings"; "0x1000"; "0x30zz"] 0 world0 =
  (Some (-1),
   mkWorld ("pagemappings: expecting number as second argument, could not parse '0x30zz'"
              ++ nl) [] []).
Proof.
  apply (pagemappings_parse_error_no_query (machine := sample_machine) 9%nat 3
           ["pagemappings"; "0x1000"; "0x30zz"] 0 world0).
  - lia.
  - right. split; reflexivity.
Defined.

Lemma lookup_pagemappings {machine : Machine} (fuel : nat) (argc : Z)
    (argv : list string) (tf : Z) :
  arg argv 0 = "pagemappings" ->
  lookup_and_invoke commands fuel argc argv tf =
  mon_pagemappings fuel argc argv tf.
Proof.
  intros H. unfold commands, lookup_and_invoke. cbn [name func].
  rewrite H. reflexivity.
Qed.

Lemma lookup_memconst {machine : Machine} (fuel : nat) (argc : Z)
    (argv : list string) (tf : Z) :
  arg argv 0 = "memconst" ->
  lookup_and_invoke commands fuel argc argv tf =
  mon_memconst fuel argc argv tf.
Proof.
  intros H. unfold commands, lookup_and_invoke. cbn [name func].
  rewrite H. reflexivity.
Qed.

Lemma pagemappings_rejects_status {machine : Machine} (fuel : nat) (argc : Z)
    (argv : list string) (tf : Z) (w : World) :
  pagemappings_rejects argc argv = true ->
  fst (mon_pagemappings fuel argc argv tf w) = Some (-1).
Proof.
  unfold pagemappings_rejects. intros H.
  destruct (Z.ltb_spec argc 2) as [L|L].
  { now rewrite mon_pagemappings_too_few. }
  destruct (Z.ltb_spec 3 argc) as [G|G].
  { now rewrite mon_pagemappings_too_many. }
  simpl in H.
  destruct (parses (arg argv 1)) eqn:P1; simpl in H.
  - apply andb_prop in H as [E P2]. apply Z.eqb_eq in E. subst argc.
    apply negb_true_iff in P2.
    now rewrite mon_pagemappings_second_unparsed.
  - rewrite mon_pagemappings_first_unparsed; [reflexivity | lia | assumption].
Qed.

Lemma memconst_rejects_status {machine : Machine} (fuel : nat) (argc : Z)
    (argv : list string) (tf : Z) (w : World) :
  nul_free (arg argv 1) = true ->
  memconst_rejects argc argv = true ->
  fst (mon_memconst fuel argc argv tf w) = Some (-1).
Proof.
  unfold memconst_rejects. intros Hn H.
  destruct (Z.eqb_spec argc 2) as [E|N].
  - subst argc.
    rewrite mon_memconst_unknown; [reflexivity|].
    rewrite get_va_ref_point_table by assumption.
    destruct (table_lookup constant_table (arg argv 1)); [discriminate H|].
    reflexivity.
  - now rewrite mon_memconst_argc.
Qed.

Lemma arg_nul_free (argv : list string) (i : nat) :
  Forall (fun t => nul_free t = true) argv -> nul_free (arg argv i) = true.
Proof.
  intros H. unfold arg. revert i.
  induction H as [|t ts Ht Hts IH]; intros [|i]; simpl; auto.
Qed.

(** C3.  Every argument-validation failure of [pagemappings] (wrong
    argument count, malformed numeric literal) and of [memconst] (wrong
    argument count, unknown constant name) returns the negative status
    -1; the interpreter loop stops as soon as the dispatched status is
    negative; so a line whose command fails validation ends the
    session: the lines after it are never read. *)
Theorem validation_failure_ends_session {machine : Machine} (fuel : nat)
    (tf : Z) (w : World) :
  (forall argc argv,
     pagemappings_rejects argc argv = true ->
     fst (mon_pagemappings fuel argc argv tf w) = Some (-1))
  /\ (forall argc argv,
        nul_free (arg argv 1) = true ->
        memconst_rejects argc argv = true ->
        fst (mon_memconst fuel argc argv tf w) = Some (-1))
  /\ (forall line lines status w',
        runcmd fuel line tf (emit w "K> ") = (Some status, w') ->
        status < 0 ->
        monitor_loop (S fuel) tf (Some line :: lines) w = (Some tt, w'))
  /\ (forall line lines,
        nul_free line = true ->
        (length (runs line) <= 15)%nat ->
        (length (runs line) < fuel)%nat ->
        (arg (runs line) 0 = "pagemappings"
         /\ pagemappings_rejects (Z.of_nat (length (runs line))) (runs line) = true)
        \/ (arg (runs line) 0 = "memconst"
            /\ memconst_rejects (Z.of_nat (length (runs line))) (runs line) = true) ->
        monitor_loop (S fuel) tf (Some line :: lines) w =
        (Some tt, snd (runcmd fuel line tf (emit w "K> ")))).
Proof.
  split; [intros; now apply pagemappings_rejects_status|].
  split; [intros; now apply memconst_rejects_status|].
  assert (Hloop : forall line lines status w',
             runcmd fuel line tf (emit w "K> ") = (Some status, w') ->
             status < 0 ->
             monitor_loop (S fuel) tf (Some line :: lines) w = (Some tt, w')).
  { intros line lines status w' Hrun Hneg.
    rewrite (monitor_loop_line fuel tf line lines w w' status Hrun).
    apply Z.ltb_lt in Hneg. now rewrite Hneg. }
  split; [exact Hloop|].
  intros line lines Hn Hfit Hfuel Hrej.
  assert (Hne : runs line <> nil).
  { destruct Hrej as [[H _]|[H _]]; intros E; rewrite E in H; discriminate H. }
  assert (Hrun : exists w', runcmd fuel line tf (emit w "K> ") = (Some (-1), w')).
  { unfold runcmd. rewrite runcmd_with_args by assumption.
    destruct Hrej as [[Hcmd Hr]|[Hcmd Hr]].
    - rewrite lookup_pagemappings by assumption.
      assert (H := pagemappings_rejects_status fuel _ _ tf (emit w "K> ") Hr).
      destruct (mon_pagemappings _ _ _ _ _) as [st w']. simpl in H. subst st.
      now exists w'.
    - rewrite lookup_memconst by assumption.
      assert (H := memconst_rejects_status fuel _ _ tf (emit w "K> ")
                     (arg_nul_free _ 1 (runs_nul_free line Hn)) Hr).
      destruct (mon_memconst _ _ _ _ _) as [st w']. simpl in H. subst st.
      now exists w'. }
  destruct Hrun as [w' Hrun]. rewrite Hrun. simpl snd.
  apply (Hloop line lines (-1) w' Hrun). lia.
Qed.

Lemma validation_failure_ends_session_witness :
  monitor_loop (machine := sample_machine) 17 0
    [Some "pagemappings 0x10y0"; Some "help"] world0 =
  (Some tt,
   mkWorld ("K> pagemappings: expecting number as first argument, could not parse '0x10y0'"
              ++ nl) [] [])
  /\ monitor_loop (machine := sample_machine) 17 0
       [Some "memconst bogus"; Some "help"] world0 =
     (Some tt,
      mkWorld ("K> memconst: unknown memory constant 'bogus'" ++ nl) [] []).
Proof.
  destruct (validation_failure_ends_session (machine := sample_machine) 16 0 world0)
    as (_ & _ & _ & H).
  split.
  - rewrite (H "pagemappings 0x10y0" [Some "help"] eq_refl
               ltac:(vm_compute; lia) ltac:(vm_compute; lia)
               (or_introl (conj eq_refl eq_refl))).
    vm_compute. reflexivity.
  - rewrite (H "memconst bogus" [Some "help"] eq_refl
               ltac:(vm_compute; lia) ltac:(vm_compute; lia)
               (or_intror (conj eq_refl eq_refl))).
    vm_compute. reflexivity.
Defined.

(** C4.  For a line with at most 15 maximal non-whitespace runs, the
    parsing loop of [runcmd] ends with [argc] equal to the number of runs
    and [argv] equal to the runs themselves, verbatim and from left to
    right.  An all-whitespace line has no run: it gives zero arguments,
    and [runcmd] returns 0 and changes nothing, whatever the command
    table holds. *)
Theorem tokenizer_runs (fuel : nat) (line : string) (w : World) :
  nul_free line = true ->
  (length (runs line) <= 15)%nat ->
  (length (runs line) < fuel)%nat ->
  parse_loop fuel line 0 [] w =
  (Some (Break (Z.of_nat (length (runs line))) (runs line)), w)
  /\ (all_whitespace line = true ->
      runs line = []
      /\ forall cmds tf, runcmd_with cmds fuel line tf w = (Some 0, w)).
Proof.
  intros Hn Hfit Hfuel. split.
  - exact (parse_loop_fits fuel line [] w Hn Hfit Hfuel).
  - intros Hws. destruct (all_whitespace_runs line Hws) as [_ Hr].
    split; [exact Hr|]. intros cmds tf.
    apply runcmd_with_empty; [assumption | assumption | lia].
Qed.

Lemma tokenizer_runs_witness :
  parse_loop 16
    ("  pagemappings 0x1000" ++ String "009" "  0x3000 ") 0 [] world0 =
  (Some (Break 3 ["pagemappings"; "0x1000"; "0x3000"]), world0)
  /\ runcmd (machine := sample_machine) 1 (String "009" (" " ++ nl)) 0 world0 =
     (Some 0, world0).
Proof.
  split.
  - apply (tokenizer_runs 16
             ("  pagemappings 0x1000" ++ String "009" "  0x3000 ") world0);
      vm_compute; [reflexivity | lia | lia].
  - apply (tokenizer_runs 1 (String "009" (" " ++ nl)) world0);
      vm_compute; [reflexivity | lia | lia | reflexivity].
Defined.

(** C5.  For a line with more than 15 non-whitespace runs, the parsing
    loop is left at the 16th run, after at most 16 iterations however
    long the line is: "Too many arguments (max 16)" is printed, [runcmd]
    returns 0 whatever the command table holds, and the interpreter loop
    goes on with the next line. *)
Theorem too_many_arguments_continue {machine : Machine} (fuel : nat)
    (line : string) (tf : Z) (w : World) :
  nul_free line = true ->
  (15 < length (runs line))%nat ->
  (16 <= fuel)%nat ->
  parse_loop fuel line 0 [] w =
  (Some (Return 0), emit w ("Too many arguments (max 16)" ++ nl))
  /\ (forall cmds,
        runcmd_with cmds fuel line tf w =
        (Some 0, emit w ("Too many arguments (max 16)" ++ nl)))
  /\ (forall lines,
        monitor_loop (S fuel) tf (Some line :: lines) w =
        monitor_loop fuel tf lines
          (emit w ("K> " ++ "Too many arguments (max 16)" ++ nl))).
Proof.
  intros Hn Hmany Hfuel. split; [|split].
  - apply (parse_loop_too_many fuel line [] w Hn); simpl; lia.
  - intros cmds. now apply runcmd_with_too_many.
  - intros lines.
    rewrite (monitor_loop_line fuel tf line lines w
               (emit (emit w "K> ") too_many_arguments) 0).
    + now rewrite emit_emit.
    + unfold runcmd. now apply runcmd_with_too_many.
Qed.

Lemma too_many_arguments_continue_witness :
  runcmd (machine := sample_machine) 16
    "help b c d e f g h i j k l m n o p q r" 0 world0 =
  (Some 0, mkWorld ("Too many arguments (max 16)" ++ nl) [] []).
Proof.
  apply (too_many_arguments_continue (machine := sample_machine) 16
           "help b c d e f g h i j k l m n o p q r" 0 world0);
    vm_compute; [reflexivity | lia | lia].
Defined.

(** C9.  For a line whose first token is the name of no registered
    command (compared exactly, case included), the dispatcher prints
    "Unknown command '<name>'" with that token, runs no handler (the
    result does not depend on the handlers of the table) and returns 0,
    so the interpreter loop goes on with the next line. *)
Theorem unknown_command_continues {machine : Machine} (fuel : nat)
    (line : string) (tf : Z) (w : World) (tok : string) (rest : list string) :
  nul_free line = true ->
  runs line = (tok :: rest)%list ->
  (length (runs line) <= 15)%nat ->
  (length (runs line) < fuel)%nat ->
  (forall cmds,
     Forall (fun c => nul_free (name c) = true) cmds ->
     ~ In tok (map name cmds) ->
     runcmd_with cmds fuel line tf w =
     (Some 0, emit w ("Unknown command '" ++ tok ++ "'" ++ nl)))
  /\ (forall lines,
        ~ In tok ["help"; "kerninfo"; "backtrace"; "pagemappings"; "memconst"] ->
        monitor_loop (S fuel) tf (Some line :: lines) w =
        monitor_loop fuel tf lines
          (emit w ("K> " ++ "Unknown command '" ++ tok ++ "'" ++ nl))).
Proof.
  intros Hn Hr Hfit Hfuel.
  assert (Htok : nul_free tok = true).
  { assert (H := runs_nul_free line Hn). rewrite Hr in H. now inversion H. }
  assert (Hrun : forall cmds w0,
             Forall (fun c => nul_free (name c) = true) cmds ->
             ~ In tok (map name cmds) ->
             runcmd_with cmds fuel line tf w0 =
             (Some 0, emit w0 (unknown_command tok))).
  { intros cmds w0 Hcs Hnot.
    rewrite runcmd_with_args; try assumption; [|rewrite Hr; discriminate].
    rewrite Hr.
    now rewrite (lookup_and_invoke_unknown cmds fuel _ (tok :: rest) tf w0). }
  split.
  - intros cmds Hcs Hnot. now apply Hrun.
  - intros lines Hnot.
    rewrite (monitor_loop_line fuel tf line lines w
               (emit (emit w "K> ") (unknown_command tok)) 0).
    + now rewrite emit_emit.
    + unfold runcmd. apply Hrun; [apply commands_names_nul_free | exact Hnot].
Qed.

Lemma unknown_command_continues_witness :
  runcmd (machine := sample_machine) 16 "HELP me" 0 world0 =
  (Some 0, mkWorld ("Unknown command 'HELP'" ++ nl) [] []).
Proof.
  apply (unknown_command_continues (machine := sample_machine) 16 "HELP me" 0
           world0 "HELP" ["me"] eq_refl eq_refl
           ltac:(vm_compute; lia) ltac:(vm_compute; lia)).
  - apply commands_names_nul_free.
  - vm_compute. intros H.
    repeat (destruct H as [H|H]; [discriminate H|]). exact H.
Defined.

(** C2.  For a frame-pointer chain whose saved links (word 0 of each
    frame) reach zero after exactly [n] frames, [mon_backtrace] prints
    the header and then, for each of the [n] frames in turn, its frame
    line (the frame pointer, word 1 as return address, words 2 to 5 as
    arguments) and its symbol line, reading the six words 0 to 5 of the
    frame and no other, and returns 0.  The loop has no other way out
    than a zero frame pointer: as long as the links are non-zero it goes
    on, for any number of iterations and any addresses. *)
Theorem backtrace_follows_chain {machine : Machine} (n fuel : nat) (argc : Z)
    (argv : list string) (tf : Z) (w : World) :
  let ebp0 := wrap32 read_ebp in
  ((forall k, (k < n)%nat -> nth_frame k ebp0 <> 0) ->
   nth_frame n ebp0 = 0 ->
   (n <= fuel)%nat ->
   let r := mon_backtrace fuel argc argv tf w in
   fst r = Some 0
   /\ console (snd r) =
      console w ++ "Stack backtrace:" ++ nl ++ frames_text (frame_chain n ebp0)
   /\ mem_reads (snd r) =
      (mem_reads w ++ flat_map frame_reads (frame_chain n ebp0))%list
   /\ length (frame_chain n ebp0) = n)
  /\ ((forall k, (k <= fuel)%nat -> nth_frame k ebp0 <> 0) ->
      let r := mon_backtrace fuel argc argv tf w in
      fst r = None
      /\ console (snd r) =
         console w ++ "Stack backtrace:" ++ nl
           ++ frames_text (frame_chain fuel ebp0))
  /\ (forall ebp a, In a (frame_reads ebp) <-> In a (frame_words ebp)).
Proof.
  intros ebp0.
  assert (H0 : 0 <= ebp0) by apply wrap32_range.
  split; [|split].
  - intros Hlive Hend Hfuel r. subst r. unfold mon_backtrace. fold ebp0.
    rewrite bind_cprintf.
    rewrite (bind_some _ _ _ _ _
               (backtrace_loop_frames n fuel ebp0 _ Hfuel H0 Hlive Hend)).
    simpl. rewrite append_assoc.
    repeat split; try reflexivity. apply frame_chain_length.
  - intros Hlive r. subst r. unfold mon_backtrace. fold ebp0.
    rewrite bind_cprintf.
    rewrite (bind_none _ _ _ _ (backtrace_loop_goes_on fuel ebp0 _ H0 Hlive)).
    simpl. rewrite append_assoc. split; reflexivity.
  - apply frame_reads_words.
Qed.

Lemma backtrace_follows_chain_witness :
  let r := mon_backtrace (machine := sample_machine) 3%nat 1 ["backtrace"] 0 world0 in
  fst r = Some 0
  /\ console (snd r) =
     "Stack backtrace:" ++ nl
       ++ frames_text (machine := sample_machine)
            [0xF010FF00; 0xF010FF40; 0xF010FF80]
  /\ length (mem_reads (snd r)) = 24%nat.
Proof.
  destruct (backtrace_follows_chain (machine := sample_machine) 3%nat 3%nat 1
              ["backtrace"] 0 world0) as (H & _ & _).
  destruct H as (H1 & H2 & H3 & _).
  - intros k Hk.
    destruct k as [|[|[|k]]]; [vm_compute; discriminate .. | lia].
  - reflexivity.
  - lia.
  - cbv zeta. rewrite H1, H2, H3. repeat split; vm_compute; reflexivity.
Defined.

(** ** The walk over a page range *)

Lemma pages_from_linear (n : nat) (va : Z) :
  0 <= va -> va + PGSIZE * Z.of_nat n <= 2 ^ 32 ->
  pages_from n va =
  map (fun k => va + PGSIZE * Z.of_nat k) (seq 0 n).
Proof.
  unfold PGSIZE. revert va. induction n as [|n IH]; intros va H0 Htop.
  - reflexivity.
  - simpl pages_from. simpl seq. rewrite map_cons. f_equal; [simpl; lia|].
    rewrite <- seq_shift, map_map.
    destruct n as [|n']; [reflexivity|].
    rewrite wrap32_small by (unfold PGSIZE; lia).
    rewrite IH by (unfold PGSIZE; lia).
    apply map_ext. intros k. unfold PGSIZE. lia.
Qed.

(** The parsed pair of addresses once masked: when the masked end lies
    below the top page, the pages from the masked start to the masked
    end inclusive are queried once each, in increasing order, and the
    handler returns 0; an empty range gives no query. *)
Lemma pagemappings_range_below_top {machine : Machine} (fuel : nat)
    (va_start va_end : Z) (w : World) :
  page_mask va_end < TOP_PAGE ->
  (Z.to_nat ((page_mask va_end - page_mask va_start) / PGSIZE + 1) <= fuel)%nat ->
  pagemappings_range fuel va_start va_end w =
  (Some 0, examined w (page_range (page_mask va_start) (page_mask va_end))).
Proof.
  intros Htop Hfuel. unfold pagemappings_range, page_range.
  assert (Rs := page_mask_range va_start). assert (Re := page_mask_range va_end).
  assert (As := page_mask_aligned va_start). assert (Ae := page_mask_aligned va_end).
  set (s := page_mask va_start) in *. set (e := page_mask va_end) in *.
  unfold TOP_PAGE, PGSIZE in *.
  destruct (Z.leb_spec s e) as [Hle|Hgt].
  - assert (Ed : (e - s) mod 4096 = 0).
    { rewrite Zminus_mod, As, Ae. reflexivity. }
    assert (Eq : e - s = 4096 * ((e - s) / 4096)) by (apply Z.div_exact; lia).
    assert (Hq : 0 <= (e - s) / 4096) by (apply Z.div_pos; lia).
    set (q := (e - s) / 4096) in *.
    rewrite (bind_some _ _ _ _ _
               (pagemappings_loop_pages (Z.to_nat (q + 1)) fuel s e w Hfuel
                  ltac:(lia) ltac:(unfold PGSIZE; lia) ltac:(unfold PGSIZE; lia))).
    rewrite pages_from_linear by (unfold PGSIZE; lia).
    reflexivity.
  - rewrite (bind_some _ _ _ _ _ (pagemappings_loop_exit fuel s e w Hgt)).
    now rewrite examined_nil.
Qed.

(** With arguments that pass validation, [mon_pagemappings] is the walk
    over the parsed pair of addresses. *)
Lemma mon_pagemappings_accepts {machine : Machine} (fuel : nat) (argc : Z)
    (argv : list string) (tf : Z) (w : World) :
  pagemappings_rejects argc argv = false ->
  mon_pagemappings fuel argc argv tf w =
  pagemappings_range fuel (parsed_start argv) (parsed_end argc argv) w.
Proof.
  unfold pagemappings_rejects, parsed_start, parsed_end. intros H.
  apply orb_false_elim in H as [H H4]. apply orb_false_elim in H as [H H3].
  apply orb_false_elim in H as [H1 H2].
  apply Z.ltb_ge in H1, H2. apply negb_false_iff in H3.
  destruct (Z.eqb_spec argc 3) as [E|N].
  - subst argc. simpl in H4. apply negb_false_iff in H4.
    now apply mon_pagemappings_two.
  - assert (E : argc = 2) by lia. subst argc.
    now apply mon_pagemappings_one.
Qed.

(** C1.  When the end address parsed by [pagemappings] lies in the top
    page (masked end 0xFFFFF000), [mon_pagemappings] never returns:
    every page-aligned 32-bit address is at most the end, and the
    increment wraps around to 0, so after the top page the pages from 0
    on are queried, without end.  The inclusive walk in increasing order
    holds only for ranges that end below the top page
    ([pagemappings_range_below_top]). *)
Theorem pagemappings_top_page_never_returns {machine : Machine} (fuel : nat)
    (argc : Z) (argv : list string) (tf : Z) (w : World) :
  pagemappings_rejects argc argv = false ->
  page_mask (parsed_end argc argv) = TOP_PAGE ->
  mon_pagemappings fuel argc argv tf w =
  (None, examined w (pages_from fuel (page_mask (parsed_start argv))))
  /\ pages_from 3 TOP_PAGE = [TOP_PAGE; 0; PGSIZE].
Proof.
  intros Hok Hend. split; [|reflexivity].
  rewrite mon_pagemappings_accepts by assumption.
  unfold pagemappings_range. rewrite Hend.
  now rewrite (bind_none _ _ _ _
                 (pagemappings_loop_top fuel (page_mask (parsed_start argv)) w
                    (page_mask_range _) (page_mask_aligned _))).
Qed.

Lemma pagemappings_top_page_never_returns_witness :
  let r := mon_pagemappings (machine := sample_machine) 20%nat 2
             ["pagemappings"; "0xfffff000"] 0 world0 in
  fst r = None
  /\ firstn 3 (pt_queries (snd r)) = [0xFFFFF000; 0; 0x1000].
Proof.
  cbv zeta.
  rewrite (proj1 (pagemappings_top_page_never_returns (machine := sample_machine)
                    20%nat 2 ["pagemappings"; "0xfffff000"] 0 world0
                    eq_refl eq_refl)).
  split; vm_compute; reflexivity.
Defined.

(** * Concrete runs *)

Lemma command_info_commands {machine : Machine} :
  map (fun c => (name c, desc c)) commands = command_info.
Proof. reflexivity. Qed.

Example pagemappings_one_page :
  runcmd (machine := sample_machine) 16 "pagemappings 0x1000" 0 world0 =
  (Some 0,
   mkWorld ("va 0x00001000 -> pa 0x00002000 [P,W,U]" ++ nl) [0x1000] []).
Proof. vm_compute. reflexivity. Qed.

Example pagemappings_three_pages :
  let r := runcmd (machine := sample_machine) 16 "pagemappings 0x1000 0x3fff" 0 world0 in
  fst r = Some 0 /\ pt_queries (snd r) = [0x1000; 0x2000; 0x3000].
Proof. vm_compute. split; reflexivity. Qed.

Example pagemappings_empty_range :
  runcmd (machine := sample_machine) 16 "pagemappings 0x3000 0x1000" 0 world0 =
  (Some 0, world0).
Proof. vm_compute. reflexivity. Qed.

Example pagemappings_top_page_wraps :
  let r := runcmd (machine := sample_machine) 16 "pagemappings 0xffffe000 0xffffffff" 0 world0 in
  fst r = None
  /\ firstn 4 (pt_queries (snd r)) = [0xFFFFE000; 0xFFFFF000; 0; 0x1000].
Proof. vm_compute. split; reflexivity. Qed.

Example memconst_kernbase :
  runcmd (machine := sample_machine) 16 "memconst KERNBASE" 0 world0 =
  (Some 0, mkWorld ("KERNBASE: 0xf0000000" ++ nl) [] []).
Proof. vm_compute. reflexivity. Qed.

Example session_ends_on_typo :
  monitor (machine := sample_machine) 40 0
    [Some "memconst UTOP"; Some "foo"; None; Some "pagemappings"; Some "help"]
    world0 =
  (Some tt,
   mkWorld
     ("Welcome to the JOS kernel monitor!" ++ nl
        ++ "Type 'help' for a list of commands." ++ nl
        ++ "K> UTOP: 0xeec00000" ++ nl
        ++ "K> Unknown command 'foo'" ++ nl
        ++ "K> K> pagemappings expects at least one argument" ++ nl)
     [] []).
Proof. vm_compute. reflexivity. Qed.

(** * Further properties *)

(** ** The page walk below the top page *)

Lemma page_range_in (s e va : Z) :
  s mod PGSIZE = 0 -> e mod PGSIZE = 0 ->
  In va (page_range s e) <-> s <= va <= e /\ va mod PGSIZE = 0.
Proof.
  unfold page_range, PGSIZE. intros As Ae.
  destruct (Z.leb_spec s e) as [Hle|Hgt]; [|simpl; lia].
  assert (Hq : 0 <= (e - s) / 4096) by (apply Z.div_pos; lia).
  assert (Hm := Z.mul_div_le (e - s) 4096 ltac:(lia)).
  rewrite in_map_iff. split.
  - intros (k & <- & Hk). apply in_seq in Hk.
    assert (Z.of_nat k <= (e - s) / 4096) by lia.
    split; [lia|].
    rewrite (Z.mul_comm 4096), Z_mod_plus_full. exact As.
  - intros [[H1 H2] Hva].
    assert (Ed : (va - s) mod 4096 = 0).
    { rewrite Zminus_mod, As, Hva. reflexivity. }
    assert (Eq : va - s = 4096 * ((va - s) / 4096)) by (apply Z.div_exact; lia).
    assert (0 <= (va - s) / 4096) by (apply Z.div_pos; lia).
    assert ((va - s) / 4096 <= (e - s) / 4096) by (apply Z.div_le_mono; lia).
    exists (Z.to_nat ((va - s) / 4096)). split; [lia|].
    apply in_seq. lia.
Qed.

Lemma page_range_sorted (s e : Z) : StronglySorted Z.lt (page_range s e).
Proof.
  unfold page_range, PGSIZE. destruct (s <=? e); [|constructor].
  generalize (Z.to_nat ((e - s) / 4096 + 1)) as n. generalize 0%nat as a.
  intros a n. revert a. induction n as [|n IH]; intros a; cbn [seq map].
  - constructor.
  - constructor; [apply IH|].
    apply Forall_forall. intros x Hx. apply in_map_iff in Hx as (k & <- & Hk).
    apply in_seq in Hk. lia.
Qed.

(** X1.  With arguments that pass validation and a masked end address
    below the top page, [mon_pagemappings] returns 0 after examining
    exactly the page-aligned addresses from the masked start to the
    masked end inclusive, each once and in increasing order (none when
    the masked start is above the masked end); nothing else is
    printed. *)
Theorem pagemappings_walks_range {machine : Machine} (fuel : nat) (argc : Z)
    (argv : list string) (tf : Z) (w : World) :
  let s := page_mask (parsed_start argv) in
  let e := page_mask (parsed_end argc argv) in
  pagemappings_rejects argc argv = false ->
  e < TOP_PAGE ->
  (Z.to_nat ((e - s) / PGSIZE + 1) <= fuel)%nat ->
  exists vas,
    mon_pagemappings fuel argc argv tf w = (Some 0, examined w vas)
    /\ (forall va, In va vas <-> s <= va <= e /\ va mod PGSIZE = 0)
    /\ StronglySorted Z.lt vas.
Proof.
  intros s e Hok Htop Hfuel. exists (page_range s e). split; [|split].
  - rewrite mon_pagemappings_accepts by assumption.
    now apply pagemappings_range_below_top.
  - intros va. apply page_range_in; apply page_mask_aligned.
  - apply page_range_sorted.
Qed.

Lemma pagemappings_walks_range_witness :
  exists vas,
    mon_pagemappings (machine := sample_machine) 3%nat 3
      ["pagemappings"; "0x1234"; "0x3fff"] 0 world0 =
    (Some 0, examined (machine := sample_machine) world0 vas)
    /\ (forall va, In va vas <-> 0x1000 <= va <= 0x3000 /\ va mod PGSIZE = 0)
    /\ StronglySorted Z.lt vas.
Proof.
  apply (pagemappings_walks_range (machine := sample_machine) 3%nat 3
           ["pagemappings"; "0x1234"; "0x3fff"] 0 world0).
  - reflexivity.
  - reflexivity.
  - vm_compute. lia.
Defined.

(** X2.  Two addresses of the same page, in either order, make
    [mon_pagemappings] examine that one page, unless it is the top
    page: the order of the addresses is compared only after masking. *)
Theorem pagemappings_same_page {machine : Machine} (fuel : nat) (argc : Z)
    (argv : list string) (tf : Z) (w : World) :
  pagemappings_rejects argc argv = false ->
  page_mask (parsed_start argv) = page_mask (parsed_end argc argv) ->
  page_mask (parsed_end argc argv) <> TOP_PAGE ->
  (1 <= fuel)%nat ->
  mon_pagemappings fuel argc argv tf w =
  (Some 0, examined w [page_mask (parsed_start argv)]).
Proof.
  intros Hok Hsame Hne Hfuel.
  rewrite mon_pagemappings_accepts by assumption.
  assert (Htop : page_mask (parsed_end argc argv) < TOP_PAGE).
  { assert (H := aligned_le_top _ (page_mask_range (parsed_end argc argv))
                   (page_mask_aligned _)). lia. }
  rewrite pagemappings_range_below_top; try assumption.
  - rewrite <- Hsame. unfold page_range. rewrite Z.leb_refl, Z.sub_diag.
    change (Z.to_nat (0 / PGSIZE + 1)) with 1%nat. cbn [seq map].
    now replace (page_mask (parsed_start argv) + PGSIZE * Z.of_nat 0)
      with (page_mask (parsed_start argv)) by (simpl; lia).
  - rewrite Hsame, Z.sub_diag. simpl. exact Hfuel.
Qed.

Lemma pagemappings_same_page_witness :
  mon_pagemappings (machine := sample_machine) 1%nat 3
    ["pagemappings"; "0x1fff"; "0x1000"] 0 world0 =
  (Some 0, mkWorld ("va 0x00001000 -> pa 0x00002000 [P,W,U]" ++ nl) [0x1000] []).
Proof.
  apply (pagemappings_same_page (machine := sample_machine) 1%nat 3
           ["pagemappings"; "0x1fff"; "0x1000"] 0 world0).
  - reflexivity.
  - reflexivity.
  - vm_compute. discriminate.
  - lia.
Defined.

(** ** Dispatch to a registered command *)

Lemma lookup_and_invoke_first (pre post : list Command) (c : Command)
    (fuel : nat) (argc : Z) (argv : list string) (tf : Z) (w : World) :
  nul_free (arg argv 0) = true ->
  Forall (fun c' => nul_free (name c') = true) pre ->
  ~ In (arg argv 0) (map name pre) ->
  name c = arg argv 0 ->
  lookup_and_invoke (pre ++ c :: post) fuel argc argv tf w =
  func c fuel argc argv tf w.
Proof.
  intros Ht Hpre Hnot Hc. induction pre as [|p pre IH]; simpl.
  - rewrite strcmp_eqb; [|assumption|now rewrite Hc].
    rewrite Hc, String.eqb_refl. reflexivity.
  - inversion Hpre as [|? ? Hp Hpre']; subst.
    rewrite strcmp_eqb by assumption.
    destruct (String.eqb_spec (arg argv 0) (name p)) as [E|N].
    + exfalso. apply Hnot. left. now symmetry.
    + apply IH; [assumption|]. intros HI. apply Hnot. now right.
Qed.

(** X3.  For a line of at most 15 tokens whose first token is the name
    of a table entry that no earlier entry shares, [runcmd] is the call
    of that entry's handler with [argc] the number of tokens and [argv]
    the tokens, the command name included; for the table of the monitor
    this is the entry with that name. *)
Theorem runcmd_dispatches {machine : Machine} (fuel : nat) (line : string)
    (tf : Z) (w : World) :
  nul_free line = true ->
  runs line <> [] ->
  (length (runs line) <= 15)%nat ->
  (length (runs line) < fuel)%nat ->
  (forall pre c post,
     Forall (fun c' => nul_free (name c') = true) pre ->
     ~ In (first_token line) (map name pre) ->
     name c = first_token line ->
     runcmd_with (pre ++ c :: post) fuel line tf w =
     func c fuel (Z.of_nat (length (runs line))) (runs line) tf w)
  /\ (forall c,
        In c commands -> name c = first_token line ->
        runcmd fuel line tf w =
        func c fuel (Z.of_nat (length (runs line))) (runs line) tf w).
Proof.
  intros Hn Hne Hfit Hfuel.
  assert (Htok : nul_free (first_token line) = true)
    by (apply arg_nul_free, runs_nul_free, Hn).
  assert (Hgen : forall pre c post,
             Forall (fun c' => nul_free (name c') = true) pre ->
             ~ In (first_token line) (map name pre) ->
             name c = first_token line ->
             runcmd_with (pre ++ c :: post) fuel line tf w =
             func c fuel (Z.of_nat (length (runs line))) (runs line) tf w).
  { intros pre c post Hpre Hnot Hc.
    rewrite runcmd_with_args by assumption.
    now apply lookup_and_invoke_first. }
  split; [exact Hgen|].
  intros c Hin Hc. unfold runcmd, commands in *.
  destruct Hin as [<-|[<-|[<-|[<-|[<-|[]]]]]]; simpl in Hc.
  - apply (Hgen [] _ _ (Forall_nil _)); [intros [] | exact Hc].
  - apply (Hgen [_] _ _); [repeat constructor | | exact Hc].
    rewrite <- Hc. simpl. intros [H|[]]; discriminate H.
  - apply (Hgen [_; _] _ _); [repeat constructor | | exact Hc].
    rewrite <- Hc. simpl. intros [H|[H|[]]]; discriminate H.
  - apply (Hgen [_; _; _] _ _); [repeat constructor | | exact Hc].
    rewrite <- Hc. simpl. intros [H|[H|[H|[]]]]; discriminate H.
  - apply (Hgen [_; _; _; _] _ _); [repeat constructor | | exact Hc].
    rewrite <- Hc. simpl. intros [H|[H|[H|[H|[]]]]]; discriminate H.
Qed.

Lemma runcmd_dispatches_witness :
  runcmd (machine := sample_machine) 16 (" memconst" ++ String "009" "UTOP ") 0 world0 =
  mon_memconst (machine := sample_machine) 16%nat 2 ["memconst"; "UTOP"] 0 world0.
Proof.
  apply (proj2 (runcmd_dispatches (machine := sample_machine) 16
                  (" memconst" ++ String "009" "UTOP ") 0 world0
                  eq_refl ltac:(vm_compute; discriminate)
                  ltac:(vm_compute; lia) ltac:(vm_compute; lia))
           (mkCommand "memconst" "Converts a memory constant to address"
              mon_memconst)).
  - right. right. right. right. left. reflexivity.
  - reflexivity.
Defined.

(** ** The argument vector *)

Lemma arg_char_spec (c : ascii) : arg_char c = at_argument c.
Proof. rewrite at_argument_spec. unfold arg_char. apply andb_comm. Qed.

Lemma scan_arg_chars (s : string) :
  string_forallb arg_char (fst (scan_arg s)) = true.
Proof.
  induction s as [|c s IH]; cbn [scan_arg]; [reflexivity|].
  destruct (at_argument c) eqn:E; [|reflexivity].
  destruct (scan_arg s) as [a r]. cbn [fst string_forallb] in *.
  now rewrite IH, andb_true_r, arg_char_spec.
Qed.

Lemma parse_loop_invariant (fuel : nat) (buf : string) (argv0 : list string)
    (w w' : World) (p : parsed) :
  (length argv0 <= 15)%nat ->
  Forall (fun a => well_formed_arg a = true) argv0 ->
  parse_loop fuel buf (Z.of_nat (length argv0)) argv0 w = (Some p, w') ->
  match p with
  | Break argc argv =>
      w' = w /\ argc = Z.of_nat (length argv) /\ (length argv <= 15)%nat
      /\ Forall (fun a => well_formed_arg a = true) argv
  | Return status => status = 0 /\ w' = emit w too_many_arguments
  end.
Proof.
  revert buf argv0. induction fuel as [|fuel IH]; intros buf argv0 Hlen Hwf Hrun.
  - discriminate Hrun.
  - rewrite parse_loop_S in Hrun.
    destruct (deref (gobble buf) =? NUL)%char eqn:Hc.
    + injection Hrun as <- <-. repeat split; assumption.
    + destruct (Z.eqb_spec (Z.of_nat (length argv0)) (MAXARGS - 1)) as [E|N].
      * injection Hrun as <- <-. split; reflexivity.
      * unfold MAXARGS in N.
        replace (Z.of_nat (length argv0) + 1)
          with (Z.of_nat (length (argv0 ++ [fst (scan_arg (gobble buf))])%list))
          in Hrun by (rewrite length_app; simpl; lia).
        apply IH in Hrun; [exact Hrun | rewrite length_app; simpl; lia |].
        apply Forall_app. split; [assumption|]. constructor; [|constructor].
        unfold well_formed_arg. rewrite scan_arg_chars, andb_true_r.
        assert (Hst := gobble_stops buf).
        destruct (gobble buf) as [|c s]; [discriminate Hc|].
        simpl in Hc, Hst. simpl.
        assert (Ha : at_argument c = true).
        { unfold at_argument, at_whitespace in *. rewrite Hc in *.
          destruct (is_null (strchr WHITESPACE c));
            [reflexivity | discriminate Hst]. }
        rewrite Ha. now destruct (scan_arg s).
Qed.

(** X4.  Whatever the bytes of the line buffer, when the parsing loop of
    [runcmd] is left by [break] the argument count is the number of
    arguments stored and at most 15, so the 16 slots of [argv] hold them
    and the closing null pointer, and every argument is a non-empty
    string without whitespace and NUL; nothing was printed.  Otherwise
    the loop returned 0 after printing the too-many-arguments message. *)
Theorem parsed_arguments_well_formed (fuel : nat) (buf : string)
    (w w' : World) (p : parsed) :
  parse_loop fuel buf 0 [] w = (Some p, w') ->
  match p with
  | Break argc argv =>
      w' = w /\ argc = Z.of_nat (length argv) /\ argc < MAXARGS
      /\ Forall (fun a => well_formed_arg a = true) argv
  | Return status =>
      status = 0 /\ w' = emit w ("Too many arguments (max 16)" ++ nl)
  end.
Proof.
  intros Hrun.
  apply (parse_loop_invariant fuel buf [] w w' p) in Hrun;
    [|simpl; lia | constructor].
  destruct p as [argc argv|status]; [|exact Hrun].
  destruct Hrun as (H1 & H2 & H3 & H4). unfold MAXARGS.
  repeat split; try assumption. lia.
Qed.

Lemma parsed_arguments_well_formed_witness :
  world0 = world0
  /\ 2 = Z.of_nat (length ["help"; "me"])
  /\ 2 < MAXARGS
  /\ Forall (fun a => well_formed_arg a = true) ["help"; "me"].
Proof.
  apply (parsed_arguments_well_formed 3 (" help me" ++ String "000" "x y")
           world0 world0 (Break 2 ["help"; "me"])).
  vm_compute. reflexivity.
Defined.

(** ** Joining and splitting *)

Lemma split_ws_not_nil (s : string) : split_ws s <> [].
Proof.
  induction s as [|c s IH]; simpl; [discriminate|].
  destruct (whitespace c); [discriminate|].
  destruct (split_ws s); discriminate.
Qed.

Lemma split_ws_app_arg (t s : string) :
  string_forallb arg_char t = true ->
  split_ws (t ++ s) =
  cons (t ++ hd EmptyString (split_ws s)) (tl (split_ws s)).
Proof.
  induction t as [|c t IH]; intros Ht.
  - simpl. destruct (split_ws s) eqn:E; [now apply split_ws_not_nil in E|].
    reflexivity.
  - cbn [string_forallb] in Ht. apply andb_prop in Ht as [Hc Ht].
    unfold arg_char in Hc. apply andb_prop in Hc as [Hc _].
    apply negb_true_iff in Hc.
    change (String c t ++ s) with (String c (t ++ s)).
    cbn [split_ws]. rewrite Hc, (IH Ht). reflexivity.
Qed.

Lemma nul_free_app (a b : string) :
  nul_free a = true -> nul_free b = true -> nul_free (a ++ b) = true.
Proof.
  induction a as [|c a IH]; simpl; [auto|]. intros Ha Hb.
  apply andb_prop in Ha as [Hc Ha]. now rewrite Hc, IH.
Qed.

Lemma well_formed_arg_nul_free (t : string) :
  well_formed_arg t = true -> nul_free t = true.
Proof.
  unfold well_formed_arg. intros H. apply andb_prop in H as [_ H].
  induction t as [|c t IH]; simpl in *; [reflexivity|].
  apply andb_prop in H as [Hc H]. unfold arg_char in Hc.
  apply andb_prop in Hc as [_ Hc]. now rewrite Hc, IH.
Qed.

Lemma concat_space_nul_free (toks : list string) :
  Forall (fun t => well_formed_arg t = true) toks ->
  nul_free (String.concat " " toks) = true.
Proof.
  induction 1 as [|t toks Ht Hts IH]; [reflexivity|].
  destruct toks as [|t2 toks]; [now apply well_formed_arg_nul_free|].
  change (String.concat " " (t :: t2 :: toks))
    with (t ++ " " ++ String.concat " " (t2 :: toks)).
  apply nul_free_app; [now apply well_formed_arg_nul_free|exact IH].
Qed.

Lemma runs_concat_space (toks : list string) :
  Forall (fun t => well_formed_arg t = true) toks ->
  runs (String.concat " " toks) = toks.
Proof.
  induction 1 as [|t toks Ht Hts IH]; [reflexivity|].
  unfold well_formed_arg in Ht. apply andb_prop in Ht as [Hne Hch].
  destruct toks as [|t2 toks].
  - simpl String.concat. unfold runs. rewrite <- (append_nil_r t) at 1.
    rewrite split_ws_app_arg by assumption. simpl.
    rewrite append_nil_r. destruct t; [discriminate Hne|reflexivity].
  - change (String.concat " " (t :: t2 :: toks))
      with (t ++ String " " (String.concat " " (t2 :: toks))).
    unfold runs in *. rewrite split_ws_app_arg by assumption.
    set (rest := String.concat " " (t2 :: toks)) in *.
    change (split_ws (String " " rest)) with (cons EmptyString (split_ws rest)).
    cbn [hd tl]. rewrite append_nil_r.
    cbn [filter]. rewrite IH. destruct t; [discriminate Hne|reflexivity].
Qed.

(** X5.  Tokenizing is a left inverse of joining: for at most 15
    well-formed arguments (non-empty, without whitespace and NUL), the
    parsing loop of [runcmd] run on the arguments joined by single spaces
    gives back their number and the arguments themselves. *)
Theorem tokenize_joined_arguments (fuel : nat) (toks : list string) (w : World) :
  Forall (fun t => well_formed_arg t = true) toks ->
  (length toks <= 15)%nat ->
  (length toks < fuel)%nat ->
  parse_loop fuel (String.concat " " toks) 0 [] w =
  (Some (Break (Z.of_nat (length toks)) toks), w).
Proof.
  intros Hwf Hfit Hfuel.
  assert (Hr := runs_concat_space toks Hwf).
  assert (Hn := concat_space_nul_free toks Hwf).
  pose proof (parse_loop_fits fuel (String.concat " " toks) [] w Hn) as H.
  rewrite Hr in H. apply H; simpl; lia.
Qed.

Lemma tokenize_joined_arguments_witness :
  parse_loop 4 "pagemappings 0x1000 0x3000" 0 [] world0 =
  (Some (Break 3 ["pagemappings"; "0x1000"; "0x3000"]), world0).
Proof.
  apply (tokenize_joined_arguments 4 ["pagemappings"; "0x1000"; "0x3000"] world0).
  - repeat constructor.
  - simpl. lia.
  - simpl. lia.
Defined.

(** ** What a command can do *)

Lemma lookup_and_invoke_cases (cmds : list Command) (fuel : nat) (argc : Z)
    (argv : list string) (tf : Z) (w : World) :
  nul_free (arg argv 0) = true ->
  Forall (fun c => nul_free (name c) = true) cmds ->
  (exists c, In c cmds /\ name c = arg argv 0
             /\ lookup_and_invoke cmds fuel argc argv tf w =
                func c fuel argc argv tf w)
  \/ (~ In (arg argv 0) (map name cmds)
      /\ lookup_and_invoke cmds fuel argc argv tf w =
         (Some 0, emit w (unknown_command (arg argv 0)))).
Proof.
  intros Ht Hcs. induction Hcs as [|c cmds Hc Hcs IH]; simpl.
  - right. split; [tauto | reflexivity].
  - rewrite strcmp_eqb by assumption.
    destruct (String.eqb_spec (arg argv 0) (name c)) as [E|N].
    + left. exists c. repeat split; auto.
    + destruct IH as [(c' & Hin & Hn & Heq)|[Hnot Heq]].
      * left. exists c'. repeat split; auto.
      * right. split; [|exact Heq]. intros [H|H]; [now apply N | now apply Hnot].
Qed.

Lemma mon_help_eq {machine : Machine} (fuel : nat) (argc : Z)
    (argv : list string) (tf : Z) (w : World) :
  mon_help fuel argc argv tf w = (Some 0, emit w help_text).
Proof.
  unfold mon_help, command_info, help_lines. mrun. reflexivity.
Qed.

Lemma mon_kerninfo_returns {machine : Machine} (fuel : nat) (argc : Z)
    (argv : list string) (tf : Z) (w : World) :
  exists text, mon_kerninfo fuel argc argv tf w = (Some 0, emit w text).
Proof. eexists. unfold mon_kerninfo. mrun. reflexivity. Qed.

Lemma pagemappings_loop_mem_reads {machine : Machine} (fuel : nat)
    (va_start va_end : Z) (w : World) :
  mem_reads (snd (pagemappings_loop fuel va_start va_end w)) = mem_reads w.
Proof.
  revert va_start w. induction fuel as [|fuel IH]; intros va_start w;
    destruct (Z.leb_spec va_start va_end) as [Hle|Hgt];
    try (now rewrite pagemappings_loop_exit).
  - simpl. apply Z.leb_le in Hle. now rewrite Hle.
  - rewrite pagemappings_loop_step, IH by assumption. reflexivity.
Qed.

Lemma backtrace_loop_pt_queries {machine : Machine} (fuel : nat) (ebp : Z)
    (w : World) :
  pt_queries (snd (backtrace_loop fuel ebp w)) = pt_queries w.
Proof.
  revert ebp w. induction fuel as [|fuel IH]; intros ebp w;
    destruct (Z.ltb_spec 0 ebp) as [Hlt|Hge].
  - simpl. apply Z.ltb_lt in Hlt. now rewrite Hlt.
  - simpl. apply Z.ltb_ge in Hge. now rewrite Hge.
  - rewrite backtrace_loop_step, IH by assumption. reflexivity.
  - simpl. apply Z.ltb_ge in Hge. now rewrite Hge.
Qed.

Lemma outcome_of_emit (cmd text : string) (w : World) :
  outcome_of cmd w (Some 0, emit w text).
Proof. unfold outcome_of. simpl. tauto. Qed.

Lemma outcome_of_emit_nil (cmd : string) (w : World) :
  outcome_of cmd w (Some 0, w).
Proof. unfold outcome_of. simpl. tauto. Qed.

Lemma handler_outcome {machine : Machine} (c : Command) (fuel : nat) (argc : Z)
    (argv : list string) (tf : Z) (w : World) :
  In c commands ->
  outcome_of (name c) w (func c fuel argc argv tf w).
Proof.
  unfold commands. intros [<-|[<-|[<-|[<-|[<-|[]]]]]]; cbn [name func].
  - rewrite mon_help_eq. apply outcome_of_emit.
  - destruct (mon_kerninfo_returns fuel argc argv tf w) as [text ->].
    apply outcome_of_emit.
  - unfold mon_backtrace. rewrite bind_cprintf.
    assert (Hq := backtrace_loop_pt_queries fuel (wrap32 read_ebp)
                    (emit w ("Stack backtrace:" ++ nl))).
    unfold bind.
    destruct (backtrace_loop fuel (wrap32 read_ebp)
                (emit w ("Stack backtrace:" ++ nl))) as [[u|] w'];
      unfold outcome_of; simpl in *; repeat split; auto; congruence.
  - destruct (pagemappings_rejects argc argv) eqn:Hrej.
    + assert (H := pagemappings_rejects_status fuel argc argv tf w Hrej).
      assert (Hw : exists text,
                 snd (mon_pagemappings fuel argc argv tf w) = emit w text).
      { unfold pagemappings_rejects in Hrej.
        destruct (Z.ltb_spec argc 2) as [L|L].
        { eexists. now rewrite mon_pagemappings_too_few. }
        destruct (Z.ltb_spec 3 argc) as [G|G].
        { eexists. now rewrite mon_pagemappings_too_many. }
        simpl in Hrej.
        destruct (parses (arg argv 1)) eqn:P1; simpl in Hrej.
        - apply andb_prop in Hrej as [E P2]. apply Z.eqb_eq in E. subst argc.
          apply negb_true_iff in P2. eexists.
          now rewrite mon_pagemappings_second_unparsed.
        - eexists. rewrite mon_pagemappings_first_unparsed; [reflexivity|lia|assumption]. }
      destruct Hw as [text Hw].
      destruct (mon_pagemappings fuel argc argv tf w) as [st w'].
      simpl in H, Hw. subst st w'. unfold outcome_of. simpl.
      repeat split; auto.
    + rewrite mon_pagemappings_accepts by assumption.
      unfold pagemappings_range.
      assert (Hm := pagemappings_loop_mem_reads fuel
                      (page_mask (parsed_start argv))
                      (page_mask (parsed_end argc argv)) w).
      unfold bind.
      destruct (pagemappings_loop fuel (page_mask (parsed_start argv))
                  (page_mask (parsed_end argc argv)) w) as [[u|] w'];
        unfold outcome_of; simpl in *; repeat split; auto; congruence.
  - unfold mon_memconst.
    destruct (negb (2 =? argc)).
    + mrun. unfold outcome_of. simpl. repeat split; auto.
    + destruct (get_va_ref_point (arg argv 1)); mrun; unfold outcome_of; simpl;
        repeat split; auto.
Qed.

Lemma lookup_outcome {machine : Machine} (fuel : nat) (argc : Z)
    (argv : list string) (tf : Z) (w : World) :
  nul_free (arg argv 0) = true ->
  outcome_of (arg argv 0) w (lookup_and_invoke commands fuel argc argv tf w).
Proof.
  intros Ht.
  destruct (lookup_and_invoke_cases commands fuel argc argv tf w Ht
              commands_names_nul_free) as [(c & Hin & Hn & ->)|[_ ->]].
  - rewrite <- Hn. now apply handler_outcome.
  - apply outcome_of_emit.
Qed.

(** The three ways in which the parsing loop can end, for any fuel. *)
Lemma parse_loop_outcome (fuel : nat) (buf : string) (argv : list string)
    (w : World) :
  nul_free buf = true ->
  (length argv <= 15)%nat ->
  parse_loop fuel buf (Z.of_nat (length argv)) argv w = (None, w)
  \/ ((length argv + length (runs buf) <= 15)%nat
      /\ parse_loop fuel buf (Z.of_nat (length argv)) argv w =
         (Some (Break (Z.of_nat (length argv + length (runs buf)))
                  (argv ++ runs buf)%list), w))
  \/ ((15 < length argv + length (runs buf))%nat
      /\ parse_loop fuel buf (Z.of_nat (length argv)) argv w =
         (Some (Return 0), emit w too_many_arguments)).
Proof.
  revert buf argv. induction fuel as [|fuel IH]; intros buf argv Hn Hlen.
  - left. reflexivity.
  - rewrite parse_loop_S.
    destruct (gobble_cases buf Hn) as [[Hg Hr]|(c & s & a & r & Hg & Hc & Hs & Hr & Hnr)].
    + right. left. rewrite Hg, Hr. simpl. rewrite Nat.add_0_r, app_nil_r.
      split; [lia | reflexivity].
    + rewrite Hg, Hr. change (deref (String c s)) with c. rewrite Hc.
      simpl length.
      destruct (Z.eqb_spec (Z.of_nat (length argv)) (MAXARGS - 1)) as [E|N].
      * right. right. unfold MAXARGS in E. split; [lia | reflexivity].
      * unfold MAXARGS in N. rewrite Hs. simpl fst. simpl snd.
        replace (Z.of_nat (length argv) + 1)
          with (Z.of_nat (length (argv ++ [a])%list))
          by (rewrite length_app; simpl; lia).
        destruct (IH r (argv ++ [a])%list Hnr
                    ltac:(rewrite length_app; simpl; lia))
          as [H|[[H1 H2]|[H1 H2]]]; rewrite length_app in *; simpl length in *.
        -- left. exact H.
        -- right. left. split; [lia|]. rewrite H2, <- app_assoc.
           now replace (length argv + 1 + length (runs r))%nat
             with (length argv + S (length (runs r)))%nat by lia.
        -- right. right. split; [lia | exact H2].
Qed.

Lemma runcmd_outcome {machine : Machine} (fuel : nat) (line : string)
    (tf : Z) (w : World) :
  nul_free line = true ->
  runcmd fuel line tf w = (None, w)
  \/ outcome_of (first_token line) w (runcmd fuel line tf w).
Proof.
  intros Hn. unfold runcmd, runcmd_with.
  destruct (parse_loop_outcome fuel line [] w Hn ltac:(simpl; lia))
    as [H|[[H1 H2]|[H1 H2]]]; simpl in H1 || idtac.
  - left. now rewrite (bind_none _ _ _ _ H).
  - right. rewrite (bind_some _ _ _ _ _ H2). simpl app. simpl Nat.add.
    destruct (runs line) as [|t ts] eqn:Hr.
    + simpl. apply outcome_of_emit_nil.
    + destruct (Z.eqb_spec (Z.of_nat (length (t :: ts))) 0) as [E|_];
        [simpl in E; lia|].
      unfold first_token. rewrite Hr.
      apply (lookup_outcome fuel _ (t :: ts) tf w).
      assert (Hf := runs_nul_free line Hn). rewrite Hr in Hf.
      now inversion Hf.
  - right. rewrite (bind_some _ _ _ _ _ H2). apply outcome_of_emit.
Qed.

(** X6.  Given enough fuel for the tokenizer, [runcmd] either returns 0,
    or returns -1 and the command was [pagemappings] or [memconst], or
    does not return and the command was [backtrace] or [pagemappings]:
    no other status exists, only those two commands can stop the
    interpreter loop, and [help], [kerninfo], [memconst], unknown
    commands, empty and overlong lines always return. *)
Theorem runcmd_outcomes {machine : Machine} (fuel : nat) (line : string)
    (tf : Z) (w : World) :
  nul_free line = true ->
  (16 <= fuel)%nat ->
  match fst (runcmd fuel line tf w) with
  | Some status =>
      status = 0
      \/ (status = -1
          /\ (first_token line = "pagemappings" \/ first_token line = "memconst"))
  | None => first_token line = "backtrace" \/ first_token line = "pagemappings"
  end.
Proof.
  intros Hn Hfuel.
  destruct (Nat.le_gt_cases (length (runs line)) 15) as [Hfit|Hmany].
  - assert (Hr : runs line = [] \/ runs line <> [])
      by (destruct (runs line); [left | right]; congruence).
    destruct Hr as [Hr|Hr].
    + unfold runcmd. rewrite runcmd_with_empty by (assumption || lia).
      left. reflexivity.
    + unfold runcmd. rewrite runcmd_with_args by (assumption || lia).
      apply (lookup_outcome fuel _ (runs line) tf w).
      apply arg_nul_free, runs_nul_free, Hn.
  - unfold runcmd. rewrite runcmd_with_too_many by assumption.
    left. reflexivity.
Qed.

Lemma runcmd_outcomes_witness :
  match fst (runcmd (machine := sample_machine) 16 "memconst kernbase" 0 world0) with
  | Some status =>
      status = 0
      \/ (status = -1
          /\ (first_token "memconst kernbase" = "pagemappings"
              \/ first_token "memconst kernbase" = "memconst"))
  | None =>
      first_token "memconst kernbase" = "backtrace"
      \/ first_token "memconst kernbase" = "pagemappings"
  end.
Proof.
  apply (runcmd_outcomes (machine := sample_machine) 16 "memconst kernbase" 0
           world0).
  - reflexivity.
  - lia.
Defined.

(** X7.  Whatever the fuel, a command other than [pagemappings] makes no
    call to [page_table_entry], and a command other than [backtrace]
    reads no stack word: for such a line the queries, respectively the
    reads, recorded after [runcmd] are those recorded before. *)
Theorem runcmd_leaves_alone {machine : Machine} (fuel : nat) (line : string)
    (tf : Z) (w : World) :
  nul_free line = true ->
  (first_token line <> "pagemappings" ->
   pt_queries (snd (runcmd fuel line tf w)) = pt_queries w)
  /\ (first_token line <> "backtrace" ->
      mem_reads (snd (runcmd fuel line tf w)) = mem_reads w).
Proof.
  intros Hn.
  destruct (runcmd_outcome fuel line tf w Hn) as [->|(_ & H1 & H2)].
  - split; reflexivity.
  - split; assumption.
Qed.

Lemma runcmd_leaves_alone_witness :
  pt_queries (snd (runcmd (machine := sample_machine) 2 "backtrace" 0 world0)) = []
  /\ mem_reads
       (snd (runcmd (machine := sample_machine) 9 "pagemappings 0 0x5000" 0 world0))
     = [].
Proof.
  split.
  - apply (runcmd_leaves_alone (machine := sample_machine) 2 "backtrace" 0 world0
             eq_refl).
    vm_compute. discriminate.
  - apply (runcmd_leaves_alone (machine := sample_machine) 9 "pagemappings 0 0x5000"
             0 world0 eq_refl).
    vm_compute. discriminate.
Defined.

(** ** The session *)

Lemma monitor_loop_null (fuel : nat) {machine : Machine} (tf : Z)
    (lines : list (option string)) (w : World) :
  monitor_loop (S fuel) tf (None :: lines) w =
  monitor_loop fuel tf lines (emit w "K> ").
Proof. simpl monitor_loop. unfold readline. mrun. reflexivity. Qed.

Lemma monitor_loop_end (fuel : nat) {machine : Machine} (tf : Z) (w : World) :
  monitor_loop (S fuel) tf [] w = monitor_loop fuel tf [] (emit w "K> ").
Proof. simpl monitor_loop. unfold readline. mrun. reflexivity. Qed.

Lemma keeps_session_status {machine : Machine} (fuel : nat) (line : string)
    (tf : Z) (w w' : World) (status : Z) :
  nul_free line = true ->
  keeps_session line = true ->
  runcmd fuel line tf w = (Some status, w') ->
  status = 0.
Proof.
  intros Hn Hk Hrun. unfold keeps_session in Hk.
  apply andb_prop in Hk as [Hp Hm].
  apply negb_true_iff, String.eqb_neq in Hp, Hm.
  destruct (runcmd_outcome fuel line tf w Hn) as [E|(H & _)].
  - rewrite E in Hrun. discriminate Hrun.
  - rewrite Hrun in H. simpl in H. destruct H as [H|[_ [H|H]]]; tauto.
Qed.

Lemma monitor_loop_goes_on {machine : Machine} (fuel : nat) (tf : Z)
    (lines : list (option string)) (w : World) :
  Forall (fun l => match l with
                   | Some line => nul_free line = true /\ keeps_session line = true
                   | None => True
                   end) lines ->
  fst (monitor_loop fuel tf lines w) = None.
Proof.
  revert lines w. induction fuel as [|fuel IH]; intros lines w Hl.
  - reflexivity.
  - destruct lines as [|[line|] lines].
    + rewrite monitor_loop_end. now apply IH.
    + inversion Hl as [|? ? Hh Hl']; subst. destruct Hh as [Hn Hk].
      destruct (runcmd fuel line tf (emit w "K> ")) as [[status|] w'] eqn:Hrun.
      * rewrite (monitor_loop_line fuel tf line lines w w' status Hrun).
        rewrite (keeps_session_status fuel line tf _ w' status Hn Hk Hrun).
        simpl. now apply IH.
      * simpl monitor_loop. unfold readline. mrun.
        now rewrite (bind_none _ _ _ _ Hrun).
    + inversion Hl; subst. rewrite monitor_loop_null. now apply IH.
Qed.

(** X8.  The monitor returns only through a failing [pagemappings] or
    [memconst]: on a session whose lines (null results of [readline]
    apart) carry other commands, [monitor] does not return for any
    amount of fuel, also once the input is exhausted. *)
Theorem session_goes_on {machine : Machine} (fuel : nat) (tf : Z)
    (lines : list (option string)) (w : World) :
  Forall (fun l => match l with
                   | Some line => nul_free line = true /\ keeps_session line = true
                   | None => True
                   end) lines ->
  fst (monitor fuel tf lines w) = None.
Proof.
  intros Hl. unfold monitor. mrun.
  destruct (negb (tf =? 0)); mrun; now apply monitor_loop_goes_on.
Qed.

Lemma session_goes_on_witness :
  fst (monitor (machine := sample_machine) 50 7
         [Some "help"; None; Some "foo bar"; Some "backtrace"; Some ""] world0)
  = None.
Proof.
  apply (session_goes_on (machine := sample_machine) 50 7
           [Some "help"; None; Some "foo bar"; Some "backtrace"; Some ""] world0).
  repeat constructor.
Defined.

(** X9.  A line of at most 15 tokens whose first token is [help] prints
    one line "<name> - <description>" for every entry of the command
    table, in table order, and returns 0, whatever arguments follow. *)
Theorem help_lists_commands {machine : Machine} (fuel : nat) (line : string)
    (tf : Z) (w : World) :
  nul_free line = true ->
  first_token line = "help" ->
  (length (runs line) <= 15)%nat ->
  (length (runs line) < fuel)%nat ->
  runcmd fuel line tf w =
  (Some 0,
   emit w (String.concat ""
             (map (fun c => name c ++ " - " ++ desc c ++ nl) commands))).
Proof.
  intros Hn Hcmd Hfit Hfuel. unfold runcmd.
  rewrite runcmd_with_args; try assumption.
  - unfold first_token in Hcmd.
    etransitivity;
      [|apply (mon_help_eq fuel (Z.of_nat (length (runs line))) (runs line) tf w)].
    apply (lookup_and_invoke_first [] _
             (mkCommand "help" "Display this list of commands" mon_help));
      [now rewrite Hcmd | constructor | intros [] | now rewrite Hcmd].
  - intros E. unfold first_token in Hcmd. rewrite E in Hcmd. discriminate Hcmd.
Qed.

Lemma help_lists_commands_witness :
  runcmd (machine := sample_machine) 3 "help me" 0 world0 =
  (Some 0,
   mkWorld
     ("help - Display this list of commands" ++ nl
        ++ "kerninfo - Display information about the kernel" ++ nl
        ++ "backtrace - Display a backtrace" ++ nl
        ++ "pagemappings - Display page mappings for a range of pages" ++ nl
        ++ "memconst - Converts a memory constant to address" ++ nl)
     [] []).
Proof.
  apply (help_lists_commands (machine := sample_machine) 3 "help me" 0 world0).
  - reflexivity.
  - reflexivity.
  - vm_compute. lia.
  - vm_compute. lia.
Defined.

(** ** A frame-pointer chain that closes on itself *)

Lemma nth_frame_add {machine : Machine} (a b : nat) (ebp : Z) :
  nth_frame (a + b) ebp = nth_frame b (nth_frame a ebp).
Proof.
  revert ebp. induction a as [|a IH]; intros ebp; simpl; [reflexivity|].
  apply IH.
Qed.

Lemma cycle_never_zero {machine : Machine} (p : nat) (ebp : Z) :
  (0 < p)%nat ->
  (forall k, (k < p)%nat -> nth_frame k ebp <> 0) ->
  nth_frame p ebp = ebp ->
  forall k, nth_frame k ebp <> 0.
Proof.
  intros Hp Hlive Hcyc k.
  induction k as [k IH] using (well_founded_induction lt_wf).
  destruct (Nat.lt_ge_cases k p) as [Hlt|Hge]; [now apply Hlive|].
  replace k with (p + (k - p))%nat by lia.
  rewrite nth_frame_add, Hcyc. apply IH. lia.
Qed.

(** X10.  When the frame-pointer chain comes back to its first frame
    after [p] non-zero frames, [mon_backtrace] never returns: for every
    amount of fuel it is still in its loop, having printed the header and
    one frame text per iteration, and the frames printed repeat with
    period [p]. *)
Theorem backtrace_cycle_never_returns {machine : Machine} (p fuel : nat)
    (argc : Z) (argv : list string) (tf : Z) (w : World) :
  let ebp0 := wrap32 read_ebp in
  (0 < p)%nat ->
  (forall k, (k < p)%nat -> nth_frame k ebp0 <> 0) ->
  nth_frame p ebp0 = ebp0 ->
  let r := mon_backtrace fuel argc argv tf w in
  fst r = None
  /\ console (snd r) =
     console w ++ "Stack backtrace:" ++ nl ++ frames_text (frame_chain fuel ebp0)
  /\ length (frame_chain fuel ebp0) = fuel
  /\ (forall k, nth_frame (k + p) ebp0 = nth_frame k ebp0).
Proof.
  intros ebp0 Hp Hlive Hcyc r. subst r.
  assert (H0 : 0 <= ebp0) by apply wrap32_range.
  assert (Hnz := cycle_never_zero p ebp0 Hp Hlive Hcyc).
  unfold mon_backtrace. fold ebp0. rewrite bind_cprintf.
  rewrite (bind_none _ _ _ _
             (backtrace_loop_goes_on fuel ebp0 _ H0 (fun k _ => Hnz k))).
  simpl. rewrite append_assoc. repeat split.
  - apply frame_chain_length.
  - intros k. now rewrite Nat.add_comm, nth_frame_add, Hcyc.
Qed.

Lemma backtrace_cycle_never_returns_witness :
  let r := mon_backtrace (machine := cyclic_machine) 5%nat 1 ["backtrace"] 0 world0 in
  fst r = None
  /\ console (snd r) =
     "Stack backtrace:" ++ nl
       ++ frames_text (machine := cyclic_machine)
            [0xF010FF00; 0xF010FF40; 0xF010FF00; 0xF010FF40; 0xF010FF00].
Proof.
  destruct (backtrace_cycle_never_returns (machine := cyclic_machine) 2%nat 5%nat
              1 ["backtrace"] 0 world0) as (H1 & H2 & _).
  - lia.
  - intros k Hk. destruct k as [|[|k]]; [vm_compute; discriminate .. | lia].
  - reflexivity.
  - cbv zeta. rewrite H1, H2. split; reflexivity.
Defined.

(** ** The kernel footprint *)

Lemma footprint_rounds_up (d : Z) :
  0 <= d -> d + 1023 < 2 ^ 31 ->
  Z.quot (ROUNDUP d 1024) 1024 = (d + 1023) / 1024.
Proof.
  intros H0 Hd. unfold ROUNDUP.
  replace (d + 1024 - 1) with (d + 1023) by lia.
  rewrite wrap32_small by lia.
  assert (Hq : 0 <= (d + 1023) / 1024) by (apply Z.div_pos; lia).
  assert (Hm := Z.div_mod (d + 1023) 1024 ltac:(lia)).
  assert (Hb := Z.mod_pos_bound (d + 1023) 1024 ltac:(lia)).
  replace (d + 1023 - (d + 1023) mod 1024) with (((d + 1023) / 1024) * 1024)
    by lia.
  unfold signed32. rewrite wrap32_small by lia.
  assert (E : ((d + 1023) / 1024 * 1024 <? 2 ^ 31) = true)
    by (apply Z.ltb_lt; lia).
  rewrite E. rewrite Z.quot_div_nonneg by lia.
  apply Z.div_mul. lia.
Qed.

(** X11.  [kerninfo] prints the header and the five symbol lines (physical addresses
    being the virtual ones minus KERNBASE in 32-bit arithmetic) and then
    the footprint of the kernel, which is the distance from [entry] to
    [end] in KB rounded up to the next whole KB, and returns 0; [ROUNDUP]
    of inc/types.h is taken as rounding up to a multiple.  The distance
    must be non-negative and, plus 1023, below 2^31. *)
Theorem kerninfo_footprint {machine : Machine} (fuel : nat) (argc : Z)
    (argv : list string) (tf : Z) (w : World) :
  0 <= end_ - entry ->
  end_ - entry + 1023 < 2 ^ 31 ->
  mon_kerninfo fuel argc argv tf w =
  (Some 0,
   emit w (kernel_symbols_text
             ++ "Kernel executable memory footprint: "
             ++ fmt_d ((end_ - entry + 1023) / 1024) ++ "KB" ++ nl)).
Proof.
  intros H0 Hd. unfold mon_kerninfo. mrun.
  rewrite footprint_rounds_up by assumption.
  unfold kernel_symbols_text. now rewrite !append_assoc.
Qed.

Lemma kerninfo_footprint_witness :
  let r := mon_kerninfo (machine := sample_machine) 0%nat 1 ["kerninfo"] 0 world0 in
  fst r = Some 0
  /\ console (snd r) =
     kernel_symbols_text (machine := sample_machine)
       ++ "Kernel executable memory footprint: 75KB" ++ nl.
Proof.
  cbv zeta.
  rewrite (kerninfo_footprint (machine := sample_machine) 0%nat 1 ["kerninfo"] 0
             world0 ltac:(vm_compute; discriminate) ltac:(vm_compute; reflexivity)).
  split; vm_compute; reflexivity.
Defined.

(** ** More on the inspector and the dispatcher *)

(** X12.  One address stands for the range from it to itself: whatever
    the argument is, also when it does not parse, [pagemappings] with
    the single argument [a] behaves as with the two arguments [a], [a]. *)
Theorem pagemappings_single_is_pair {machine : Machine} (fuel : nat)
    (cmd a : string) (tf : Z) (w : World) :
  mon_pagemappings fuel 2 [cmd; a] tf w =
  mon_pagemappings fuel 3 [cmd; a; a] tf w.
Proof.
  destruct (parses a) eqn:P.
  - rewrite mon_pagemappings_one, mon_pagemappings_two by exact P. reflexivity.
  - rewrite !mon_pagemappings_first_unparsed by (exact P || lia). reflexivity.
Qed.

(** X13.  [runcmd] depends on the line only through its tokens: two
    lines with the same maximal non-whitespace runs, whatever whitespace
    separates or surrounds them, give the same status, output and
    queries, for every command table. *)
Theorem runcmd_depends_on_tokens (cmds : list Command) (fuel : nat)
    (line1 line2 : string) (tf : Z) (w : World) :
  nul_free line1 = true ->
  nul_free line2 = true ->
  runs line1 = runs line2 ->
  (16 <= fuel)%nat ->
  runcmd_with cmds fuel line1 tf w = runcmd_with cmds fuel line2 tf w.
Proof.
  intros H1 H2 Hr Hfuel.
  destruct (Nat.le_gt_cases (length (runs line1)) 15) as [Hfit|Hmany].
  - assert (Hc : runs line1 = [] \/ runs line1 <> [])
      by (destruct (runs line1); [left | right]; congruence).
    destruct Hc as [Hc|Hc].
    + rewrite !runcmd_with_empty; try assumption; try lia; congruence.
    + rewrite (runcmd_with_args cmds fuel line1) by (assumption || lia).
      rewrite (runcmd_with_args cmds fuel line2)
        by (assumption || (rewrite <- Hr; (assumption || lia))).
      now rewrite Hr.
  - rewrite !runcmd_with_too_many; try assumption; try reflexivity.
    now rewrite <- Hr.
Qed.

Lemma runcmd_depends_on_tokens_witness :
  runcmd (machine := sample_machine) 16
    ("  memconst" ++ String "009" (" UTOP " ++ nl)) 0 world0 =
  runcmd (machine := sample_machine) 16 "memconst UTOP" 0 world0.
Proof.
  apply (runcmd_depends_on_tokens (commands (machine := sample_machine)) 16
           ("  memconst" ++ String "009" (" UTOP " ++ nl)) "memconst UTOP" 0
           world0); [reflexivity | reflexivity | reflexivity | lia].
Defined.

(** X14.  Only a null result of [page_table_entry] is printed as
    unmapped: an entry that is present in the table but all zero, and
    so without the Present flag, is printed as a translation to physical
    address 0 with an empty flag list (when the machine has physical
    pages). *)
Theorem zero_entry_printed_as_mapped {machine : Machine} (va : Z) (w : World) :
  page_table_entry va = Some 0 ->
  0 < wrap32 npages ->
  show_page_details va w =
  (Some tt,
   emit (queried w [va]) ("va 0x" ++ fmt_08x va ++ " -> pa 0x00000000 []" ++ nl)).
Proof.
  intros Hpte Hn. rewrite (show_page_details_mapped va 0 w Hpte).
  unfold mapped_prefix, flag_list, flag_order, flag_set, beyond_memory.
  cbn [filter]. rewrite !Z.land_0_l. cbn [Z.eqb negb map String.concat].
  change (fmt_08x (PTE_ADDR 0)) with "00000000".
  change (PGNUM (PTE_ADDR 0)) with 0.
  assert (E : (0 >=? wrap32 npages) = false)
    by (rewrite Z.geb_leb; apply Z.leb_gt; exact Hn).
  rewrite E. now rewrite !append_assoc.
Qed.

Lemma zero_entry_printed_as_mapped_witness :
  show_page_details
    (machine := with_page_table sample_machine (fun _ => Some 0)) 0x5000 world0 =
  (Some tt, mkWorld ("va 0x00005000 -> pa 0x00000000 []" ++ nl) [0x5000] []).
Proof.
  apply (zero_entry_printed_as_mapped
           (machine := with_page_table sample_machine (fun _ => Some 0))
           0x5000 world0).
  - reflexivity.
  - reflexivity.
Defined.
